(** * Interactive_Visuals: a shallow embedding of [interactive_visuals.py]

    The module wraps plotly/pandas calls.  The embedding keeps the parts of
    pandas the builders rely on: tables of named columns, boolean-mask row
    selection, [groupby(...).size()], column assignment, and the object
    store in which a table lives (Python names are references, so two names
    may denote the same table).

    Numbers.  A finite binary64 value is a rational and comparisons between
    finite doubles are exact, so float cells carry a canonical rational
    ([Qc]); arithmetic on them is exact here, which leaves out the rounding
    error of binary64 arithmetic.  [CNaN] is the missing value. *)

From Stdlib Require Import QArith Qcanon Qround Lqa Ascii String.
From stdpp Require Import base list strings numbers lexico orders sorting.

Open Scope string_scope.
Open Scope list_scope.
Open Scope nat_scope.

(** ** Exceptions and results *)

Inductive exn : Type :=
  | KeyError (key : string)
  | NameError (name : string)
  | ValueError
  | TypeError.

Inductive result (A : Type) : Type :=
  | Ok (a : A)
  | Raise (e : exn).
Arguments Ok {A} a.
Arguments Raise {A} e.

Definition rbind {A B} (r : result A) (k : A → result B) : result B :=
  match r with
  | Ok a => k a
  | Raise e => Raise e
  end.

Declare Scope result_scope.
Delimit Scope result_scope with result.
Notation "x <~ r ;; k" := (rbind r (λ x, k))
  (at level 100, r at next level, right associativity) : result_scope.
Open Scope result_scope.

Fixpoint rmap {A B} (f : A → result B) (l : list A) : result (list B) :=
  match l with
  | [] => Ok []
  | a :: l' =>
      rbind (f a) (λ b, rbind (rmap f l') (λ bs, Ok (b :: bs)))
  end.

(** ** Cells, columns and tables *)

Inductive cell : Type :=
  | CInt (z : Z)
  | CFloat (q : Qc)
  | CStr (s : string)
  | CNaN.

Global Instance cell_eq_dec : EqDecision cell.
Proof. solve_decision. Defined.

Global Instance cell_inhabited : Inhabited cell := populate CNaN.

Definition dec (n : Z) (d : positive) : Qc := Q2Qc (n # d).

(** The numeric value of a cell, when it has one. *)
Definition cell_num (c : cell) : option Qc :=
  match c with
  | CInt z => Some (Qc_of_Z z)
  | CFloat q => Some q
  | CStr _ | CNaN => None
  end.

Record DataFrame : Type := mkDataFrame {
  df_index : list cell;
  df_columns : list (string * list cell)
}.

Definition len (df : DataFrame) : nat := length (df_index df).

Fixpoint lookup_column (name : string) (cols : list (string * list cell))
  : option (list cell) :=
  match cols with
  | [] => None
  | (n, c) :: cols' => if String.eqb n name then Some c else lookup_column name cols'
  end.

(** [df[name]] *)
Definition getitem (df : DataFrame) (name : string) : result (list cell) :=
  match lookup_column name (df_columns df) with
  | Some c => Ok c
  | None => Raise (KeyError name)
  end.

Fixpoint replace_column (name : string) (vals : list cell)
  (cols : list (string * list cell)) : list (string * list cell) :=
  match cols with
  | [] => [(name, vals)]
  | (n, c) :: cols' =>
      if String.eqb n name then (n, vals) :: cols'
      else (n, c) :: replace_column name vals cols'
  end.

(** [df[name] = vals]: overwrites the column of that name, or appends one. *)
Definition setitem (df : DataFrame) (name : string) (vals : list cell)
  : result DataFrame :=
  if Nat.eqb (length vals) (len df)
  then Ok (mkDataFrame (df_index df) (replace_column name vals (df_columns df)))
  else Raise ValueError.

(** [df.columns = names] *)
Definition set_columns (df : DataFrame) (names : list string) : result DataFrame :=
  if Nat.eqb (length names) (length (df_columns df))
  then Ok (mkDataFrame (df_index df) (zip names (snd <$> df_columns df)))
  else Raise ValueError.

(** Boolean-mask selection, [s[mask]]. *)
Fixpoint select {A} (mask : list bool) (l : list A) : list A :=
  match mask, l with
  | b :: mask', a :: l' => if b then a :: select mask' l' else select mask' l'
  | _, _ => []
  end.

Definition df_select (mask : list bool) (df : DataFrame) : DataFrame :=
  mkDataFrame (select mask (df_index df))
              (prod_map id (select mask) <$> df_columns df).

(** Elementwise comparison of a column with a number.  A missing value
    compares false; a string against a number is a [TypeError]. *)
Definition cell_cmp (op : Qc → Qc → bool) (bound : Qc) (c : cell) : result bool :=
  match c with
  | CInt z => Ok (op (Qc_of_Z z) bound)
  | CFloat q => Ok (op q bound)
  | CNaN => Ok false
  | CStr _ => Raise TypeError
  end.

Definition Qc_gtb (a b : Qc) : bool := bool_decide (b < a)%Qc.
Definition Qc_leb (a b : Qc) : bool := bool_decide (a ≤ b)%Qc.
Definition Qc_ltb (a b : Qc) : bool := bool_decide (a < b)%Qc.

Definition series_gt (s : list cell) (bound : Qc) : result (list bool) :=
  rmap (cell_cmp Qc_gtb bound) s.
Definition series_le (s : list cell) (bound : Qc) : result (list bool) :=
  rmap (cell_cmp Qc_leb bound) s.

(** ** Python values passed to the plotting library *)

Inductive pyval : Type :=
  | PNone
  | PBool (b : bool)
  | PInt (z : Z)
  | PFloat (q : Qc)
  | PStr (s : string)
  | PSeries (l : list cell).

Definition of_optstr (o : option string) : pyval :=
  match o with
  | Some s => PStr s
  | None => PNone
  end.

(** Truthiness of an optional string argument ([if color:], [not title]):
    [None] and the empty string are false. *)
Definition truthy (o : option string) : bool :=
  match o with
  | Some s => negb (String.eqb s "")
  | None => false
  end.

(** One [go.Scatter(...)] series. *)
Record Trace : Type := mkTrace {
  tr_name : string;
  tr_mode : string;
  tr_x : list cell;
  tr_y : list cell;
  tr_showlegend : bool;
  tr_style : list (string * pyval)
}.

(** What a builder returns.  A [px.*] call is recorded with the table it
    was given and its keyword arguments in source order; a [go.Figure] with
    its layout title, template and list of series. *)
Inductive Figure : Type :=
  | PxFigure (fn : string) (data_frame : DataFrame) (kwargs : list (string * pyval))
  | GoFigure (layout_title_text : string) (layout_template : string)
             (data : list Trace).

Fixpoint kwarg (name : string) (kwargs : list (string * pyval)) : pyval :=
  match kwargs with
  | [] => PNone
  | (n, v) :: kwargs' => if String.eqb n name then v else kwarg name kwargs'
  end.

(** The title a figure carries, if any. *)
Definition fig_title (fig : Figure) : option string :=
  match fig with
  | PxFigure _ _ kwargs =>
      match kwarg "title" kwargs with
      | PStr s => Some s
      | _ => None
      end
  | GoFigure t _ _ => Some t
  end.

Definition add_trace (fig : Figure) (t : Trace) : Figure :=
  match fig with
  | GoFigure title template data => GoFigure title template (data ++ [t])
  | PxFigure fn d kw => PxFigure fn d kw
  end.

Definition fig_data (fig : Figure) : list Trace :=
  match fig with
  | GoFigure _ _ data => data
  | PxFigure _ _ _ => []
  end.

(** ** The object store

    A reference is a position in the store.  [alloc] appends, so a
    reference handed out earlier never denotes the new object.  The world
    also holds the binding of the module-level name [df] (bound only by the
    [__main__] block) and the random generator: the standard-normal
    variates it will hand out, and how many were consumed. *)

Definition loc := nat.

Record world : Type := mkWorld {
  heap : list DataFrame;
  global_df : option loc;
  rng : nat → Qc;
  rng_pos : nat
}.

Definition M (A : Type) : Type := world → result A * world.

Definition ret {A} (a : A) : M A := λ w, (Ok a, w).
Definition raise {A} (e : exn) : M A := λ w, (Raise e, w).
Definition bind {A B} (m : M A) (k : A → M B) : M B :=
  λ w, match m w with
       | (Ok a, w') => k a w'
       | (Raise e, w') => (Raise e, w')
       end.
Definition lift {A} (r : result A) : M A := λ w, (r, w).

Declare Scope py_scope.
Delimit Scope py_scope with py.
Notation "x <- m ;; k" := (bind m (λ x, k))
  (at level 100, m at next level, right associativity) : py_scope.
Open Scope py_scope.

(** Reading through a reference.  [Dangling] stands for a reference that
    denotes no object; references obtained from [alloc] are never so. *)
Definition Dangling : exn := NameError "<dangling reference>".

Definition load (l : loc) : M DataFrame :=
  λ w, match heap w !! l with
       | Some d => (Ok d, w)
       | None => (Raise Dangling, w)
       end.

Definition store (l : loc) (d : DataFrame) : M unit :=
  λ w, (Ok tt, mkWorld (<[l := d]> (heap w)) (global_df w) (rng w) (rng_pos w)).

Definition alloc (d : DataFrame) : M loc :=
  λ w, (Ok (length (heap w)),
        mkWorld (heap w ++ [d]) (global_df w) (rng w) (rng_pos w)).

(** ** The class *)

Record Interactive_Visuals : Type := mkInteractive_Visuals { _df : loc }.

(** [__init__] keeps the caller's reference: no copy is made. *)
Definition __init__ (df : loc) : Interactive_Visuals := mkInteractive_Visuals df.

(** ** control_chart_ADTK *)

(** The literals [.33] and [.67].  They are taken at their decimal value;
    the banding below only compares cells against them. *)
Definition viol_low_max : Qc := dec 33 100.
Definition viol_med_max : Qc := dec 67 100.

(** The bands of lines 305-309 ("Create violation criteria"). *)
Record Bands : Type := mkBands {
  df_viol : DataFrame;
  df_viol_low : DataFrame;
  df_viol_med : DataFrame;
  df_viol_high : DataFrame
}.

Definition violation_criteria (df : DataFrame) : result Bands :=
  rbind (getitem df "Violation") (λ v,
  rbind (series_gt v 0) (λ m,
  let df_viol := df_select m df in
  rbind (getitem df_viol "Violation") (λ v,
  rbind (series_le v viol_low_max) (λ m,
  let df_viol_low := df_select m df_viol in
  rbind (getitem df_viol "Violation") (λ v,
  rbind (series_le v viol_med_max) (λ m,
  let df_viol_med := df_select m df_viol in
  rbind (getitem df_viol_med "Violation") (λ v,
  rbind (series_gt v viol_low_max) (λ m,
  let df_viol_med := df_select m df_viol_med in
  rbind (getitem df_viol "Violation") (λ v,
  rbind (series_gt v viol_med_max) (λ m,
  let df_viol_high := df_select m df_viol in
  Ok (mkBands df_viol df_viol_low df_viol_med df_viol_high))))))))))).

Definition control_chart_ADTK (self : Interactive_Visuals)
  (title : string) (value_name : string) : M Figure :=
  df <- load (_df self) ;;
  bands <- lift (violation_criteria df) ;;
  y <- lift (getitem df "Values") ;;
  let fig := GoFigure title "ggplot2"
    [mkTrace value_name "markers+lines" (df_index df) y true
       [("marker_symbol", PStr "circle"); ("marker_size", PInt 6);
        ("line_color", PStr "blue")]] in
  y <- lift (getitem df "Median") ;;
  let fig := add_trace fig
    (mkTrace "Median" "lines" (df_index df) y true
       [("line_color", PStr "gray"); ("line_width", PInt 2)]) in
  y <- lift (getitem df "UCL") ;;
  let fig := add_trace fig
    (mkTrace "Control Limits" "lines" (df_index df) y true
       [("line_color", PStr "black"); ("line_dash", PStr "dash");
        ("line_width", PInt 2)]) in
  y <- lift (getitem df "LCL") ;;
  let fig := add_trace fig
    (mkTrace "LCL" "lines" (df_index df) y false
       [("line_color", PStr "black"); ("line_dash", PStr "dash");
        ("line_width", PInt 2)]) in
  y <- lift (getitem (df_viol bands) "Values") ;;
  let fig := add_trace fig
    (mkTrace "Violation" "markers" (df_index (df_viol bands)) y true
       [("marker_color", PStr "red"); ("marker_size", PInt 12);
        ("marker_symbol", PStr "circle-open"); ("marker_opacity", PFloat (dec 8 10))]) in
  y <- lift (getitem (df_viol bands) "Values") ;;
  let fig := add_trace fig
    (mkTrace "Low Probability of Violation" "markers"
       (df_index (df_viol_low bands)) y true
       [("marker_color", PStr "yellow"); ("marker_size", PInt 10);
        ("marker_opacity", PFloat (dec 5 10))]) in
  y <- lift (getitem (df_viol_med bands) "Values") ;;
  let fig := add_trace fig
    (mkTrace "Medium Probability of Violation" "markers"
       (df_index (df_viol_med bands)) y true
       [("marker_color", PStr "orange"); ("marker_size", PInt 10);
        ("marker_opacity", PFloat (dec 5 10))]) in
  y <- lift (getitem (df_viol_high bands) "Values") ;;
  let fig := add_trace fig
    (mkTrace "High Probability of Violation" "markers"
       (df_index (df_viol_high bands)) y true
       [("marker_color", PStr "red"); ("marker_size", PInt 10);
        ("marker_opacity", PFloat (dec 5 10))]) in
  ret fig.

(** ** Column normalisation ([utils.clean_varname])

    The [utils] module is not part of the sources at hand. *)

Definition is_word_char (a : ascii) : bool :=
  let n := nat_of_ascii a in
  (Nat.leb 48 n && Nat.leb n 57) || (Nat.leb 65 n && Nat.leb n 90)
  || (Nat.leb 97 n && Nat.leb n 122).

Inductive scan : Type := AtStart | InWord | AfterGap.

Definition scan_gap (st : scan) : scan :=
  match st with
  | AtStart => AtStart
  | InWord | AfterGap => AfterGap
  end.

Fixpoint clean_from (st : scan) (s : string) : string :=
  match s with
  | EmptyString => EmptyString
  | String a s' =>
      if is_word_char a then
        match st with
        | AfterGap => String "_" (String a (clean_from InWord s'))
        | AtStart | InWord => String a (clean_from InWord s')
        end
      else clean_from (scan_gap st) s'
  end.

(** Modelled from the spec: the name cleaning of [clean_varname], which
    "collapses whitespace and punctuation into a portable variable name"
    with "whitespace trimmed/collapsed".  Letters and digits are kept; each
    run of other characters between two kept characters becomes one
    underscore; leading and trailing runs are dropped. *)
Definition clean_name (var : string) : string := clean_from AtStart var.

(** Modelled from the spec: [clean_varname(df, var)], the column
    normaliser of [utils].  "Input column must exist in the dataset; fails
    with a column-not-found error otherwise"; it "adds a column under that
    normalized name to a copy of the dataset if the name differs from the
    original, leaving the original column intact", and "never mutates
    shared state": the result is a new table, the argument is only read. *)
Definition clean_varname (df : loc) (var : string) : M (string * loc) :=
  d <- load df ;;
  col <- lift (getitem d var) ;;
  let clean := clean_name var in
  let copy :=
    if String.eqb clean var then d
    else mkDataFrame (df_index d) (replace_column clean col (df_columns d)) in
  l <- alloc copy ;;
  ret (clean, l).

(** The block repeated for each optional column argument:
    [if v: v_clean, df_clean = clean_varname(df_clean, var = v)
     else: v_clean = v]. *)
Definition clean_optional (df_clean : loc) (v : option string)
  : M (option string * loc) :=
  match v with
  | Some name =>
      if truthy v then
        p <- clean_varname df_clean name ;;
        ret (Some (fst p), snd p)
      else ret (v, df_clean)
  | None => ret (v, df_clean)
  end.

(** [if has_title: if not title: title = default]. *)
Definition default_title (has_title : bool) (title : option string)
  (default : string) : option string :=
  if has_title then
    if negb (truthy title) then Some default else title
  else title.

(** ** histogram *)

Definition histogram (self : Interactive_Visuals) (x : string)
  (y : option string) (is_horizontal : bool) (color facet_col facet_row : option string)
  (bins : Z) (opacity : Qc) (marginal : option string) (template : string)
  (has_title : bool) (title : option string) : M Figure :=
  p <- clean_varname (_df self) x ;;
  let x_clean := fst p in let df_clean := snd p in
  p <- clean_optional df_clean color ;;
  let color_clean := fst p in let df_clean := snd p in
  p <- clean_optional df_clean y ;;
  let y_clean := fst p in let df_clean := snd p in
  p <- clean_optional df_clean facet_col ;;
  let facet_col_clean := fst p in let df_clean := snd p in
  p <- clean_optional df_clean facet_row ;;
  let facet_row_clean := fst p in let df_clean := snd p in
  let title := default_title has_title title ("Histogram of " +:+ x_clean) in
  d <- load df_clean ;;
  if is_horizontal then
    ret (PxFigure "histogram" d
      [("y", PStr x_clean); ("x", of_optstr y_clean); ("color", of_optstr color_clean);
       ("title", of_optstr title); ("marginal", of_optstr marginal);
       ("template", PStr template); ("opacity", PFloat opacity); ("nbins", PInt bins);
       ("facet_col", of_optstr facet_col_clean); ("facet_row", of_optstr facet_row_clean)])
  else
    ret (PxFigure "histogram" d
      [("x", PStr x_clean); ("y", of_optstr y_clean); ("color", of_optstr color_clean);
       ("title", of_optstr title); ("marginal", of_optstr marginal);
       ("template", PStr template); ("opacity", PFloat opacity); ("nbins", PInt bins);
       ("facet_col", of_optstr facet_col_clean); ("facet_row", of_optstr facet_row_clean)]).

(** ** linechart *)

Definition linechart (self : Interactive_Visuals) (x y : string)
  (color : option string) (template : string)
  (has_title : bool) (title : option string) : M Figure :=
  p <- clean_varname (_df self) x ;;
  let x_clean := fst p in let df_clean := snd p in
  p <- clean_varname df_clean y ;;
  let y_clean := fst p in let df_clean := snd p in
  p <- clean_optional df_clean color ;;
  let color_clean := fst p in let df_clean := snd p in
  let title := default_title has_title title ("Time Series of " +:+ y_clean) in
  d <- load df_clean ;;
  ret (PxFigure "line" d
    [("x", PStr x_clean); ("y", PStr y_clean); ("color", of_optstr color_clean);
     ("template", PStr template); ("title", of_optstr title)]).

(** ** scatterplot *)

(** [np.random.normal(loc, scale, size = n)]: [n] variates
    [loc + scale * z], [z] standard normal; a negative scale is rejected. *)
Definition random_normal (loc_ scale : Qc) (n : nat) : M (list Qc) :=
  λ w, if Qc_ltb scale 0 then (Raise ValueError, w)
       else (Ok ((λ i, loc_ + scale * rng w (rng_pos w + i))%Qc <$> seq 0 n),
             mkWorld (heap w) (global_df w) (rng w) (rng_pos w + n)).

Definition cell_add (c : cell) (q : Qc) : result cell :=
  match c with
  | CInt z => Ok (CFloat (Qc_of_Z z + q))
  | CFloat a => Ok (CFloat (a + q))
  | CNaN => Ok CNaN
  | CStr _ => Raise TypeError
  end.

Fixpoint rzip_with {A B C} (f : A → B → result C) (l : list A) (k : list B)
  : result (list C) :=
  match l, k with
  | a :: l', b :: k' =>
      rbind (f a b) (λ c, rbind (rzip_with f l' k') (λ cs, Ok (c :: cs)))
  | _, _ => Ok []
  end.

(** [series + array]: elementwise when the lengths agree; an array of one
    element is broadcast; any other mismatch is a [ValueError]. *)
Definition series_add (s : list cell) (a : list Qc) : result (list cell) :=
  if Nat.eqb (length a) (length s) then rzip_with cell_add s a
  else match a with
       | [q] => rmap (λ c, cell_add c q) s
       | _ => Raise ValueError
       end.

(** The value of the name [df] inside a method: neither a parameter nor a
    local, so it is looked up among the module's globals. *)
Definition name_df : M loc :=
  λ w, match global_df w with
       | Some l => (Ok l, w)
       | None => (Raise (NameError "df"), w)
       end.

(** [df_clean[col] = df_clean[col] + np.random.normal(0, jitter_sd, size=len(df))] *)
Definition jitter_column (df_clean : loc) (col : string) (jitter_sd : Qc) : M unit :=
  d <- load df_clean ;;
  s <- lift (getitem d col) ;;
  df <- name_df ;;
  g <- load df ;;
  noise <- random_normal 0 jitter_sd (len g) ;;
  s' <- lift (series_add s noise) ;;
  d <- load df_clean ;;
  d' <- lift (setitem d col s') ;;
  store df_clean d'.

Definition scatterplot (self : Interactive_Visuals) (x y : string)
  (color : option string) (jitter : bool) (jitter_sd : Qc)
  (marg_x marg_y trendline : option string) (opacity : Qc) (template : string)
  (has_title : bool) (title : option string) : M Figure :=
  p <- clean_varname (_df self) x ;;
  let x_clean := fst p in let df_clean := snd p in
  p <- clean_varname df_clean y ;;
  let y_clean := fst p in let df_clean := snd p in
  _ <- (if jitter then
          _ <- jitter_column df_clean x_clean jitter_sd ;;
          jitter_column df_clean y_clean jitter_sd
        else ret tt) ;;
  p <- clean_optional df_clean color ;;
  let color_clean := fst p in let df_clean := snd p in
  let title :=
    default_title has_title title ("Scatter Plot of " +:+ x_clean +:+ " and " +:+ y_clean) in
  d <- load df_clean ;;
  ret (PxFigure "scatter" d
    [("x", PStr x_clean); ("y", PStr y_clean); ("color", of_optstr color_clean);
     ("title", of_optstr title); ("marginal_x", of_optstr marg_x);
     ("marginal_y", of_optstr marg_y); ("trendline", of_optstr trendline);
     ("template", PStr template); ("opacity", PFloat opacity)]).

(** ** Ordering of group keys

    [groupby] sorts the group keys.  Cells of one kind are ordered by
    value (strings by character code); the order between kinds is only
    there to make the order total, a column holds one kind. *)

Definition string_codes (s : string) : list nat :=
  nat_of_ascii <$> list_ascii_of_string s.

Global Instance Qc_lexico : Lexico Qc := Qclt.
Global Instance string_lexico : Lexico string :=
  λ s t, lexico (string_codes s) (string_codes t).

Global Instance cell_lexico : Lexico cell := λ a b,
  match a, b with
  | CInt x, CInt y => lexico x y
  | CInt _, _ => True
  | CFloat _, CInt _ => False
  | CFloat x, CFloat y => lexico x y
  | CFloat _, _ => True
  | CStr _, (CInt _ | CFloat _) => False
  | CStr x, CStr y => lexico x y
  | CStr _, CNaN => True
  | CNaN, _ => False
  end.

Global Instance Qc_lexico_po : StrictOrder (@lexico Qc _).
Proof. unfold lexico, Qc_lexico. apply _. Qed.

Global Instance Qc_lexico_trichotomy : TrichotomyT (@lexico Qc _).
Proof.
  red; refine (λ x y,
    match Qclt_le_dec x y with
    | left H => inleft (left H)
    | right H =>
        match Qc_eq_dec x y with
        | left E => inleft (right E)
        | right N => inright _
        end
    end).
  abstract (apply Qcle_lt_or_eq in H as [H|H]; [exact H | congruence]).
Defined.

Lemma string_codes_inj s t : string_codes s = string_codes t → s = t.
Proof.
  revert t. induction s as [|a s IH]; intros [|b t]; simpl; try done.
  intros [= Hab Hst]. f_equal; [|by apply IH].
  by rewrite <- (ascii_nat_embedding a), <- (ascii_nat_embedding b), Hab.
Qed.

Global Instance string_lexico_po : StrictOrder (@lexico string _).
Proof.
  split.
  - intros s H. exact (irreflexivity lexico (string_codes s) H).
  - intros s t u H1 H2.
    exact (transitivity (R := @lexico (list nat) _) H1 H2).
Qed.

Global Instance string_lexico_trichotomy : TrichotomyT (@lexico string _).
Proof.
  red; refine (λ s t,
    match trichotomyT lexico (string_codes s) (string_codes t) with
    | inleft (left H) => inleft (left H)
    | inleft (right E) => inleft (right (string_codes_inj _ _ E))
    | inright H => inright H
    end).
Defined.

Global Instance cell_lexico_po : StrictOrder (@lexico cell _).
Proof.
  split.
  - intros [x|x|x|] H; try exact H; exact (irreflexivity lexico x H).
  - intros [x|x|x|] [y|y|y|] [z|z|z|] H1 H2; try done;
      first [ exact (transitivity (R := @lexico Z _) H1 H2)
            | exact (transitivity (R := @lexico Qc _) H1 H2)
            | exact (transitivity (R := @lexico string _) H1 H2) ].
Qed.

Global Instance cell_lexico_trichotomy : TrichotomyT (@lexico cell _).
Proof.
  red; refine (λ a b,
    match a, b with
    | CInt x, CInt y => cast_trichotomy (trichotomyT lexico x y)
    | CFloat x, CFloat y => cast_trichotomy (trichotomyT lexico x y)
    | CStr x, CStr y => cast_trichotomy (trichotomyT lexico x y)
    | CNaN, CNaN => inleft (right _)
    | CInt _, _ | CFloat _, (CStr _ | CNaN) | CStr _, CNaN => inleft (left _)
    | _, _ => inright _
    end); abstract (unfold lexico, cell_lexico; done || congruence).
Defined.

(** The order [sort] uses: "not greater than". *)
Definition lex_le {A} `{Lexico A} (a b : A) : Prop := ¬ lexico b a.

Global Instance lex_le_dec {A} `{Lexico A} `{!TrichotomyT (@lexico A _)}
  `{!StrictOrder (@lexico A _)} : RelDecision (@lex_le A _).
Proof. intros a b. unfold lex_le. apply _. Defined.

(** The distinct elements of a list, sorted: the group keys of [groupby]. *)
Definition sorted_keys {A} `{Lexico A} `{!RelDecision (@lex_le A _)}
  `{EqDecision A} (l : list A) : list A :=
  merge_sort lex_le (remove_dups l).

(** ** groupby *)

Fixpoint zip_rows (cols : list (list cell)) : list (list cell) :=
  match cols with
  | [] => []
  | c :: cs =>
      match cs with
      | [] => (λ a, [a]) <$> c
      | _ :: _ => zip_with cons c (zip_rows cs)
      end
  end.

(** A series of integers under a (multi-)index: what
    [groupby(keys).size()] returns. *)
Record Series : Type := mkSeries {
  s_names : list string;
  s_rows : list (list cell * Z)
}.

(** The key tuples [groupby] counts: those without a missing value. *)
Definition key_rows (cols : list (list cell)) : list (list cell) :=
  filter (λ r, CNaN ∉ r) (zip_rows cols).

(** The number of rows of key [k]. *)
Definition count_key (k : list cell) (rows : list (list cell)) : Z :=
  Z.of_nat (length (filter (λ r, r = k) rows)).

(** The distinct keys, sorted, each with its number of rows. *)
Definition size_series (names : list string) (rows : list (list cell)) : Series :=
  mkSeries names ((λ k, (k, count_key k rows)) <$> sorted_keys rows).

(** [df.groupby(by).size()]: rows with a missing key are dropped, the
    distinct key tuples are sorted, each carries its number of rows. *)
Definition groupby_size (df : DataFrame) (by_ : list string) : result Series :=
  cols <~ rmap (getitem df) by_ ;;
  Ok (size_series by_ (key_rows cols)).

Definition range_index (n : nat) : list cell := (λ i, CInt (Z.of_nat i)) <$> seq 0 n.

(** [s.reset_index()]: the index levels become columns, the values the
    column named [0]; two levels of one name cannot both be inserted. *)
Definition reset_index (s : Series) : result DataFrame :=
  if bool_decide (NoDup (s_names s)) then
    Ok (mkDataFrame (range_index (length (s_rows s)))
          (imap (λ i name, (name, (λ r, r.1 !!! i) <$> s_rows s)) (s_names s)
           ++ [("0", (λ r, CInt r.2) <$> s_rows s)]))
  else Raise ValueError.

Definition level0 (r : list cell * Z) : cell := r.1 !!! 0%nat.

(** [s.groupby(level = 0)]: one sub-series per distinct first-level key, in
    sorted key order, each in the order of [s]. *)
Definition groupby_level0 (s : Series) : list (list (list cell * Z)) :=
  let keys := sorted_keys (level0 <$> s_rows s) in
  (λ k, filter (λ r, level0 r = k) (s_rows s)) <$> keys.

Definition sumZ (l : list Z) : Z := foldr Z.add 0%Z l.

(** [lambda x: 100 * x / float(x.sum())] *)
Definition percent_of_group (x : list (list cell * Z)) : list Qc :=
  (λ r, Qc_of_Z (100 * r.2) / Qc_of_Z (sumZ (snd <$> x)))%Qc <$> x.

(** [.groupby(level = 0).apply(f).values] *)
Definition apply_values (f : list (list cell * Z) → list Qc)
  (groups : list (list (list cell * Z))) : list cell :=
  CFloat <$> concat (f <$> groups).

(** ** Rounding *)

(** Round to the nearest integer, ties to the even one. *)
Definition rint (q : Qc) : Z :=
  let f := Qfloor q in
  let r := (q - Qc_of_Z f)%Qc in
  if Qc_ltb r (dec 1 2) then f
  else if Qc_gtb r (dec 1 2) then (f + 1)%Z
  else if Z.even f then f else (f + 1)%Z.

Definition pow10 (n : nat) : Qc := Qc_of_Z (10 ^ Z.of_nat n).

(** [round(x, decimals)] on a float: scale, [rint], unscale. *)
Definition np_round (q : Qc) (decimals : nat) : Qc :=
  (Qc_of_Z (rint (q * pow10 decimals)) / pow10 decimals)%Qc.

Definition cell_round (decimals : nat) (c : cell) : result cell :=
  match c with
  | CFloat q => Ok (CFloat (np_round q decimals))
  | CInt z => Ok (CInt z)
  | CNaN => Ok CNaN
  | CStr _ => Raise TypeError
  end.

(** [round(series, decimals)] *)
Definition series_round (s : list cell) (decimals : nat) : result (list cell) :=
  rmap (cell_round decimals) s.

(** ** barplot *)

(** Lines 117-121: the aggregate of the stacked/grouped path.  [df_stack]
    is a new table, private to the call until it is handed on. *)
Definition stacked_aggregate (df : DataFrame) (x color : string) : result DataFrame :=
  s <~ groupby_size df [x; color] ;;
  df_stack <~ reset_index s ;;
  s <~ groupby_size df [x; color] ;;
  df_stack <~ setitem df_stack "Percentage"
               (apply_values percent_of_group (groupby_level0 s)) ;;
  df_stack <~ set_columns df_stack [x; color; "Count"; "Percentage"] ;;
  p <~ getitem df_stack "Percentage" ;;
  p <~ series_round p 2 ;;
  setitem df_stack "Percentage" p.

(** Lines 176-179: the aggregate of the basic path. *)
Definition basic_aggregate (df : DataFrame) (x : string) : result DataFrame :=
  s <~ groupby_size df [x] ;;
  df_stack <~ reset_index s ;;
  s <~ groupby_size df [x] ;;
  df_stack <~ setitem df_stack "Percentage"
               (apply_values percent_of_group (groupby_level0 s)) ;;
  set_columns df_stack [x; "Count"; "Percentage"].

(** The stacked/grouped path, lines 123-173. *)
Definition barplot_stacked (self : Interactive_Visuals) (x color : string)
  (opacity : Qc) (template : string) (has_title : bool) (barmode : string)
  (is_horizontal : bool) (title : option string) (is_percent show_num : bool)
  : M Figure :=
  df <- load (_df self) ;;
  agg <- lift (stacked_aggregate df x color) ;;
  df_stack <- alloc agg ;;
  p <- clean_varname df_stack x ;;
  let x_clean := fst p in let df_clean := snd p in
  p <- clean_varname df_clean color ;;
  let color_clean := fst p in let df_clean := snd p in
  let title :=
    if has_title then
      if negb (truthy title)
      then Some ("Bar Plot of " +:+ x_clean +:+ " and " +:+ color_clean)
      else title
    else None in
  d <- load df_clean ;;
  let common :=
    [("color", PStr color_clean); ("template", PStr template);
     ("barmode", PStr barmode); ("opacity", PFloat opacity);
     ("title", of_optstr title)] in
  if is_horizontal then
    if is_percent then
      if show_num then
        text <- lift (getitem d "Percentage") ;;
        ret (PxFigure "bar" d
               ([("y", PStr x_clean); ("x", PStr "Percentage")] ++ common
                ++ [("text", PSeries text)]))
      else
        ret (PxFigure "bar" d ([("y", PStr x_clean); ("x", PStr "Percentage")] ++ common))
    else
      if show_num then
        text <- lift (getitem d "Count") ;;
        ret (PxFigure "bar" d
               ([("y", PStr x_clean); ("x", PStr "Count")] ++ common
                ++ [("text", PSeries text)]))
      else
        ret (PxFigure "bar" d ([("y", PStr x_clean); ("x", PStr "Count")] ++ common))
  else
    if is_percent then
      if show_num then
        text <- lift (getitem d "Percentage") ;;
        ret (PxFigure "bar" d
               ([("x", PStr x_clean); ("y", PStr "Percentage")] ++ common
                ++ [("text", PSeries text)]))
      else
        ret (PxFigure "bar" d ([("x", PStr x_clean); ("y", PStr "Percentage")] ++ common))
    else
      if show_num then
        text <- lift (getitem d "Count") ;;
        ret (PxFigure "bar" d
               ([("x", PStr x_clean); ("y", PStr "Count")] ++ common
                ++ [("text", PSeries text)]))
      else
        ret (PxFigure "bar" d ([("x", PStr x_clean); ("y", PStr "Count")] ++ common)).

(** The basic path, lines 176-192. *)
Definition barplot_basic (self : Interactive_Visuals) (x : string)
  (template : string) (has_title : bool) (is_horizontal : bool)
  (title : option string) : M Figure :=
  df <- load (_df self) ;;
  agg <- lift (basic_aggregate df x) ;;
  df_stack <- alloc agg ;;
  p <- clean_varname df_stack x ;;
  let x_clean := fst p in let df_clean := snd p in
  let title := default_title has_title title ("Bar plot of " +:+ x_clean) in
  d <- load df_clean ;;
  if is_horizontal then
    ret (PxFigure "bar" d
           [("y", PStr x_clean); ("x", PStr "Count"); ("template", PStr template);
            ("title", of_optstr title)])
  else
    ret (PxFigure "bar" d
           [("x", PStr x_clean); ("y", PStr "Count"); ("template", PStr template);
            ("title", of_optstr title)]).

Definition barplot (self : Interactive_Visuals) (x : string) (color : option string)
  (opacity : Qc) (template : string) (has_title : bool) (barmode : string)
  (is_horizontal : bool) (title : option string) (is_percent show_num : bool)
  : M Figure :=
  match color with
  | Some c =>
      if truthy color
      then barplot_stacked self x c opacity template has_title barmode
             is_horizontal title is_percent show_num
      else barplot_basic self x template has_title is_horizontal title
  | None => barplot_basic self x template has_title is_horizontal title
  end.

(** ** Example tables *)

Definition ex_scenario : DataFrame :=
  mkDataFrame (range_index 6)
    [("x", [CInt 1; CInt 1; CInt 1; CInt 2; CInt 2; CInt 3]);
     ("c", [CStr "A"; CStr "A"; CStr "B"; CStr "A"; CStr "B"; CStr "B"])].

Definition ex_chart : DataFrame :=
  mkDataFrame [CStr "t1"; CStr "t2"; CStr "t3"]
    [("Values", [CInt 10; CInt 20; CInt 30]);
     ("Median", [CInt 15; CInt 15; CInt 15]);
     ("UCL", [CInt 25; CInt 25; CInt 25]);
     ("LCL", [CInt 5; CInt 5; CInt 5]);
     ("Violation", [CFloat (dec 9 10); CFloat (dec 1 10); CInt 0])].

Definition ex_xy : DataFrame :=
  mkDataFrame (range_index 2)
    [("sepal length", [CFloat (dec 51 10); CFloat (dec 49 10)]);
     ("width", [CInt 3; CInt 4])].

(** A world holding one table, referenced by [0]. *)
Definition ex_world (d : DataFrame) (g : option loc) : world :=
  mkWorld [d] g (λ _, 1%Qc) 0.

(** ** Definitions used to state the properties *)

(** The comparison a successful column comparison computed for a cell. *)
Definition num_cmp (op : Qc → Qc → bool) (bound : Qc) (c : cell) : bool :=
  match cell_num c with
  | Some q => op q bound
  | None => false
  end.

(** The bands as the contract words them.  Out of control:
    [violation > 0]. *)
Definition out_of_control (c : cell) : bool := num_cmp Qc_gtb 0 c.

(** low: [0 < violation <= 0.33] *)
Definition in_low (c : cell) : bool :=
  num_cmp Qc_gtb 0 c && num_cmp Qc_leb (dec 33 100) c.

(** medium: [0.33 < violation <= 0.67] *)
Definition in_med (c : cell) : bool :=
  num_cmp Qc_gtb (dec 33 100) c && num_cmp Qc_leb (dec 67 100) c.

(** high: [violation > 0.67] *)
Definition in_high (c : cell) : bool := num_cmp Qc_gtb (dec 67 100) c.

(** The columns a control-chart table must have. *)
Definition required_columns : list string :=
  ["Values"; "Median"; "UCL"; "LCL"; "Violation"].

(** The series the chart is made of, given the columns read. *)
Definition chart_series (value_name : string) (df : DataFrame) (bands : Bands)
  (values median ucl lcl y_viol y_low y_med y_high : list cell) : list Trace :=
  [mkTrace value_name "markers+lines" (df_index df) values true
     [("marker_symbol", PStr "circle"); ("marker_size", PInt 6);
      ("line_color", PStr "blue")];
   mkTrace "Median" "lines" (df_index df) median true
     [("line_color", PStr "gray"); ("line_width", PInt 2)];
   mkTrace "Control Limits" "lines" (df_index df) ucl true
     [("line_color", PStr "black"); ("line_dash", PStr "dash");
      ("line_width", PInt 2)];
   mkTrace "LCL" "lines" (df_index df) lcl false
     [("line_color", PStr "black"); ("line_dash", PStr "dash");
      ("line_width", PInt 2)];
   mkTrace "Violation" "markers" (df_index (df_viol bands)) y_viol true
     [("marker_color", PStr "red"); ("marker_size", PInt 12);
      ("marker_symbol", PStr "circle-open"); ("marker_opacity", PFloat (dec 8 10))];
   mkTrace "Low Probability of Violation" "markers"
     (df_index (df_viol_low bands)) y_low true
     [("marker_color", PStr "yellow"); ("marker_size", PInt 10);
      ("marker_opacity", PFloat (dec 5 10))];
   mkTrace "Medium Probability of Violation" "markers"
     (df_index (df_viol_med bands)) y_med true
     [("marker_color", PStr "orange"); ("marker_size", PInt 10);
      ("marker_opacity", PFloat (dec 5 10))];
   mkTrace "High Probability of Violation" "markers"
     (df_index (df_viol_high bands)) y_high true
     [("marker_color", PStr "red"); ("marker_size", PInt 10);
      ("marker_opacity", PFloat (dec 5 10))]].

(** A control-chart table without its [Median] column. *)
Definition ex_chart_no_median : DataFrame :=
  mkDataFrame [CStr "t1"]
    [("Values", [CInt 10]); ("UCL", [CInt 25]); ("LCL", [CInt 5]);
     ("Violation", [CFloat (dec 1 2)])].


(** The world after [alloc d]. *)
Definition add_heap (w : world) (d : DataFrame) : world :=
  mkWorld (heap w ++ [d]) (global_df w) (rng w) (rng_pos w).

(** The copy [clean_varname] returns. *)
Definition normalized (d : DataFrame) (var : string) (col : list cell) : DataFrame :=
  if String.eqb (clean_name var) var then d
  else mkDataFrame (df_index d) (replace_column (clean_name var) col (df_columns d)).

(** [frame n m Q]: run from a store of at least [n] objects, [m] leaves
    the first [n] objects as they were, and a returned value satisfies
    [Q]. *)
Definition frame {A} (n : nat) (m : M A) (Q : A → Prop) : Prop :=
  ∀ w r w', n ≤ length (heap w) → m w = (r, w') →
    take n (heap w') = take n (heap w) ∧ n ≤ length (heap w')
    ∧ ∀ a, r = Ok a → Q a.


Definition sumQc (l : list Qc) : Qc := foldr Qcplus 0%Qc l.

(** The number of rows of primary category [k1]. *)
Definition count_primary (k1 : cell) (rows : list (list cell)) : Z :=
  Z.of_nat (length (filter (λ r, r !!! 0 = k1) rows)).

(** [100 * count / total] *)
Definition percent (count total : Z) : Qc :=
  (Qc_of_Z (100 * count) / Qc_of_Z total)%Qc.

(** The rounded percentage of a key. *)
Definition percentage (rows : list (list cell)) (k : list cell) : Qc :=
  np_round (percent (count_key k rows) (count_primary (k !!! 0) rows)) 2.

(** The aggregate as the contract words it: one row per key present, with
    its count and its share of the rows of its primary category, rounded to
    two decimals. *)
Definition stacked_table (x color : string) (rows : list (list cell)) : DataFrame :=
  let keys := sorted_keys rows in
  mkDataFrame (range_index (length keys))
    [(x, (λ k, k !!! 0) <$> keys);
     (color, (λ k, k !!! 1) <$> keys);
     ("Count", (λ k, CInt (count_key k rows)) <$> keys);
     ("Percentage", CFloat <$> (percentage rows <$> keys))].

(** The aggregate of the basic path, before its percentages are worked
    out: each count over the total of its own level-0 group. *)
Definition basic_table (x : string) (rows : list (list cell)) : DataFrame :=
  let keys := sorted_keys rows in
  mkDataFrame (range_index (length keys))
    [(x, (λ k, k !!! 0) <$> keys);
     ("Count", (λ k, CInt (count_key k rows)) <$> keys);
     ("Percentage",
      CFloat <$> ((λ k, percent (count_key k rows) (count_primary (k !!! 0) rows))
                  <$> keys))].


(** One primary category of 800 rows, one of them of colour [A]. *)
Definition ex_one_in_800 : DataFrame :=
  mkDataFrame (range_index 800)
    [("x", replicate 800 (CInt 1));
     ("c", CStr "A" :: replicate 799 (CStr "B"))].


(** ** Definitions used to state the further properties *)

(** What a series shows: its name, its points and whether the legend lists
    it. *)
Definition series_view (t : Trace) : string * list cell * list cell * bool :=
  (tr_name t, tr_x t, tr_y t, tr_showlegend t).

(** A chart table whose [Violation] column holds a string. *)
Definition ex_chart_text : DataFrame :=
  mkDataFrame [CStr "t1"; CStr "t2"]
    [("Values", [CInt 10; CInt 20]); ("Median", [CInt 15; CInt 15]);
     ("UCL", [CInt 25; CInt 25]); ("LCL", [CInt 5; CInt 5]);
     ("Violation", [CFloat (dec 1 2); CStr "high"])].

(** A cell that is not a string: a number or a missing value. *)
Definition not_str (c : cell) : Prop := ∀ s, c ≠ CStr s.

(** A chart table with no violation above 0. *)
Definition ex_chart_quiet : DataFrame :=
  mkDataFrame [CStr "t1"; CStr "t2"]
    [("Values", [CInt 10; CInt 20]); ("Median", [CInt 15; CInt 15]);
     ("UCL", [CInt 25; CInt 25]); ("LCL", [CInt 5; CInt 5]);
     ("Violation", [CInt 0; CNaN])].

(** The table has a column of that name. *)
Definition has_column (df : DataFrame) (name : string) : Prop :=
  is_Some (lookup_column name (df_columns df)).

(** Two group keys in increasing order: integers and floats by value,
    strings by character code.  Keys of different kinds are not compared. *)
Definition ascending (a b : cell) : Prop :=
  match a, b with
  | CInt x, CInt y => (x < y)%Z
  | CFloat x, CFloat y => (x < y)%Qc
  | CStr s, CStr t => lexico s t
  | _, _ => True
  end.

(** The mask of the rows that have no missing value in the given
    columns. *)
Definition complete_rows (cols : list (list cell)) : list bool :=
  (λ r, bool_decide (CNaN ∉ r)) <$> zip_rows cols.

(** A table with missing values in both grouping columns. *)
Definition ex_missing : DataFrame :=
  mkDataFrame (range_index 4)
    [("x", [CInt 1; CInt 1; CNaN; CInt 2]);
     ("c", [CStr "A"; CNaN; CStr "B"; CStr "B"])].

(** The same outcome, with a returned value mapped. *)
Definition result_map {A B} (f : A → B) (r : result A) : result B :=
  match r with
  | Ok a => Ok (f a)
  | Raise e => Raise e
  end.

(** Exchanging the keywords [x] and [y] of a plotting call. *)
Definition swap_xy_name (n : string) : string :=
  if String.eqb n "x" then "y" else if String.eqb n "y" then "x" else n.

(** The same plotting call with [x] and [y] exchanged. *)
Definition swap_xy (fig : Figure) : Figure :=
  match fig with
  | PxFigure fn d kwargs => PxFigure fn d (prod_map swap_xy_name id <$> kwargs)
  | GoFigure t tpl data => GoFigure t tpl data
  end.

(** The keyword arguments of a [px.*] call. *)
Definition fig_kwargs (fig : Figure) : list (string * pyval) :=
  match fig with
  | PxFigure _ _ kwargs => kwargs
  | GoFigure _ _ _ => []
  end.

(** The table a [px.*] call plots. *)
Definition fig_frame (fig : Figure) : option DataFrame :=
  match fig with
  | PxFigure _ d _ => Some d
  | GoFigure _ _ _ => None
  end.

(** The keyword of the category axis and of the value axis of a bar
    chart. *)
Definition category_axis (is_horizontal : bool) : string :=
  if is_horizontal then "y" else "x".

Definition value_axis (is_horizontal : bool) : string :=
  if is_horizontal then "x" else "y".

(** * Properties *)

(** ** Results and the store monad *)

Lemma rbind_Ok {A B} (r : result A) (k : A → result B) b :
  rbind r k = Ok b → ∃ a, r = Ok a ∧ k a = Ok b.
Proof. destruct r; simpl; [eauto | discriminate]. Qed.

(** ** Boolean-mask selection *)

Lemma select_nil {A} (mask : list bool) : select mask (@nil A) = [].
Proof. by destruct mask. Qed.

Lemma select_select {A B} (p q : B → bool) (v : list B) (l : list A) :
  select (p <$> select (q <$> v) v) (select (q <$> v) l)
  = select ((λ c, q c && p c) <$> v) l.
Proof.
  revert l. induction v as [|c v IH]; intros [|a l]; simpl; try done.
  - by rewrite !select_nil.
  - destruct (q c); simpl; [destruct (p c); simpl|]; by rewrite IH.
Qed.

Lemma lookup_column_select mask name cols :
  lookup_column name (prod_map id (select mask) <$> cols)
  = select mask <$> lookup_column name cols.
Proof.
  induction cols as [|[n c] cols IH]; simpl; [done|].
  by destruct (String.eqb n name).
Qed.

Lemma getitem_select mask df name v :
  getitem df name = Ok v → getitem (df_select mask df) name = Ok (select mask v).
Proof.
  unfold getitem, df_select. simpl. rewrite lookup_column_select.
  destruct (lookup_column name (df_columns df)); simpl; congruence.
Qed.

Lemma df_select_select (p q : cell → bool) v df :
  df_select (p <$> select (q <$> v) v) (df_select (q <$> v) df)
  = df_select ((λ c, q c && p c) <$> v) df.
Proof.
  unfold df_select. simpl. f_equal; [apply select_select|].
  rewrite <- list_fmap_compose. apply list_fmap_ext.
  intros i [n c] _. simpl. f_equal. apply select_select.
Qed.

(** ** Comparisons on columns *)

Lemma rmap_cell_cmp op bound v m :
  rmap (cell_cmp op bound) v = Ok m → m = num_cmp op bound <$> v.
Proof.
  revert m. induction v as [|c v IH]; simpl; intros m H.
  - by inversion H.
  - apply rbind_Ok in H as (b & Hb & H). apply rbind_Ok in H as (m' & Hm & H).
    inversion H; subst. rewrite (IH _ Hm). f_equal.
    unfold num_cmp. destruct c; simpl in *; congruence.
Qed.

(** ** Control-chart bands *)

Lemma violation_criteria_masks df bands :
  violation_criteria df = Ok bands →
  ∃ v, getitem df "Violation" = Ok v
    ∧ df_viol bands = df_select (out_of_control <$> v) df
    ∧ df_viol_low bands
      = df_select ((λ c, out_of_control c && num_cmp Qc_leb viol_low_max c) <$> v) df
    ∧ df_viol_med bands
      = df_select ((λ c, (out_of_control c && num_cmp Qc_leb viol_med_max c)
                          && num_cmp Qc_gtb viol_low_max c) <$> v) df
    ∧ df_viol_high bands
      = df_select ((λ c, out_of_control c && num_cmp Qc_gtb viol_med_max c) <$> v) df.
Proof.
  unfold violation_criteria. intros H.
  apply rbind_Ok in H as (v & Hv & H). exists v. split; [done|].
  apply rbind_Ok in H as (m & Hm & H). apply rmap_cell_cmp in Hm. subst m.
  change (num_cmp Qc_gtb 0) with out_of_control in H.
  pose proof (getitem_select (out_of_control <$> v) _ _ _ Hv) as Hsel.
  rewrite Hsel in H. simpl in H.
  apply rbind_Ok in H as (m1 & Hm1 & H). apply rmap_cell_cmp in Hm1. subst m1.
  apply rbind_Ok in H as (m2 & Hm2 & H). apply rmap_cell_cmp in Hm2. subst m2.
  rewrite (df_select_select (num_cmp Qc_leb viol_med_max) out_of_control v df) in H.
  rewrite (df_select_select (num_cmp Qc_leb viol_low_max) out_of_control v df) in H.
  rewrite (getitem_select _ _ _ _ Hv) in H. simpl in H.
  apply rbind_Ok in H as (m3 & Hm3 & H). apply rmap_cell_cmp in Hm3. subst m3.
  rewrite (df_select_select (num_cmp Qc_gtb viol_low_max)
             (λ c, out_of_control c && num_cmp Qc_leb viol_med_max c) v df) in H.
  apply rbind_Ok in H as (m4 & Hm4 & H). apply rmap_cell_cmp in Hm4. subst m4.
  rewrite (df_select_select (num_cmp Qc_gtb viol_med_max) out_of_control v df) in H.
  inversion H; subst; simpl. done.
Qed.

(** Order facts on canonical rationals, by way of [Q]. *)
Ltac qred_consts :=
  repeat match goal with
    | H : context [Qred ?x] |- _ =>
        let y := eval vm_compute in (Qred x) in change (Qred x) with y in H
    | |- context [Qred ?x] =>
        let y := eval vm_compute in (Qred x) in change (Qred x) with y
    end.

Ltac qc_order :=
  unfold Qc_gtb, Qc_leb, Qc_ltb in *; repeat case_bool_decide; try done;
  try exfalso; unfold Qclt, Qcle, viol_low_max, viol_med_max, dec in *;
  simpl in *; qred_consts; lra.

Lemma bands_exclusive c :
  in_low c && in_med c = false ∧ in_low c && in_high c = false
  ∧ in_med c && in_high c = false.
Proof.
  unfold in_low, in_med, in_high, num_cmp.
  destruct (cell_num c) as [q|]; [|done]. repeat split; qc_order.
Qed.

Lemma bands_cover c : in_low c || in_med c || in_high c = out_of_control c.
Proof.
  unfold in_low, in_med, in_high, out_of_control, num_cmp.
  destruct (cell_num c) as [q|]; [|done]. qc_order.
Qed.

Lemma in_med_mask c :
  (out_of_control c && num_cmp Qc_leb viol_med_max c)
  && num_cmp Qc_gtb viol_low_max c = in_med c.
Proof.
  unfold in_med, out_of_control, num_cmp.
  destruct (cell_num c) as [q|]; [|done]. qc_order.
Qed.

Lemma in_high_mask c :
  out_of_control c && num_cmp Qc_gtb viol_med_max c = in_high c.
Proof.
  unfold in_high, out_of_control, num_cmp.
  destruct (cell_num c) as [q|]; [|done]. qc_order.
Qed.

(** C3.  The three bands computed by [control_chart_ADTK] are the rows of
    the table whose violation lies in (0, 0.33], in (0.33, 0.67] and above
    0.67.  No violation value lies in two bands, and the values lying in
    some band are exactly those above 0.  A violation of 0.33 is in the low
    band only, one of 0.67 in the medium band only, and a violation of 0 is
    in no band. *)
Theorem violation_bands_partition df bands :
  violation_criteria df = Ok bands →
  ∃ v, getitem df "Violation" = Ok v
    ∧ df_viol bands = df_select (out_of_control <$> v) df
    ∧ df_viol_low bands = df_select (in_low <$> v) df
    ∧ df_viol_med bands = df_select (in_med <$> v) df
    ∧ df_viol_high bands = df_select (in_high <$> v) df
    ∧ (∀ c, in_low c && in_med c = false ∧ in_low c && in_high c = false
            ∧ in_med c && in_high c = false
            ∧ in_low c || in_med c || in_high c = out_of_control c)
    ∧ (in_low (CFloat (dec 33 100)), in_med (CFloat (dec 33 100)),
       in_high (CFloat (dec 33 100))) = (true, false, false)
    ∧ (in_low (CFloat (dec 67 100)), in_med (CFloat (dec 67 100)),
       in_high (CFloat (dec 67 100))) = (false, true, false)
    ∧ (∀ c, cell_num c = Some 0%Qc →
            (in_low c, in_med c, in_high c) = (false, false, false)).
Proof.
  intros H. apply violation_criteria_masks in H as (v & Hv & H0 & Hl & Hm & Hh).
  exists v. split; [done|]. split; [done|]. split; [done|].
  split.
  { rewrite Hm. f_equal. apply list_fmap_ext. intros _ c _. apply in_med_mask. }
  split.
  { rewrite Hh. f_equal. apply list_fmap_ext. intros _ c _. apply in_high_mask. }
  split.
  { intros c. destruct (bands_exclusive c) as (?&?&?).
    repeat split; try done. apply bands_cover. }
  split; [by vm_compute|]. split; [by vm_compute|].
  intros c Hc. unfold in_low, in_med, in_high, num_cmp. rewrite Hc.
  by vm_compute.
Qed.

Lemma violation_bands_partition_witness :
  ∃ bands, violation_criteria ex_chart = Ok bands
    ∧ df_index (df_viol_low bands) = [CStr "t2"]
    ∧ df_index (df_viol_med bands) = []
    ∧ df_index (df_viol_high bands) = [CStr "t1"].
Proof.
  destruct (violation_criteria ex_chart) as [bands|e] eqn:E;
    [|by vm_compute in E].
  exists bands. split; [done|].
  destruct (violation_bands_partition ex_chart bands E)
    as (v & Hv & _ & -> & -> & -> & _).
  vm_compute in Hv. injection Hv as <-. by vm_compute.
Defined.

(** ** control_chart_ADTK: result and failures *)

Lemma getitem_Ok_lookup df name v :
  getitem df name = Ok v ↔ lookup_column name (df_columns df) = Some v.
Proof.
  unfold getitem. destruct (lookup_column name (df_columns df)); split; congruence.
Qed.

Lemma violation_criteria_Ok_column df bands :
  violation_criteria df = Ok bands → ∃ v, getitem df "Violation" = Ok v.
Proof. intros H. apply rbind_Ok in H as (v & Hv & _). eauto. Qed.

Lemma control_chart_ADTK_Ok self title value_name w fig w' :
  control_chart_ADTK self title value_name w = (Ok fig, w') →
  w' = w ∧ ∃ df bands values median ucl lcl y_viol y_med y_high,
    heap w !! _df self = Some df
    ∧ violation_criteria df = Ok bands
    ∧ getitem df "Values" = Ok values
    ∧ getitem df "Median" = Ok median
    ∧ getitem df "UCL" = Ok ucl
    ∧ getitem df "LCL" = Ok lcl
    ∧ getitem (df_viol bands) "Values" = Ok y_viol
    ∧ getitem (df_viol_med bands) "Values" = Ok y_med
    ∧ getitem (df_viol_high bands) "Values" = Ok y_high
    ∧ fig = GoFigure title "ggplot2"
              (chart_series value_name df bands values median ucl lcl
                 y_viol y_viol y_med y_high).
Proof.
  unfold control_chart_ADTK, bind, load, lift, ret. intros H.
  destruct (heap w !! _df self) as [df|] eqn:Hdf; [|discriminate].
  destruct (violation_criteria df) as [bands|] eqn:Hb; [|discriminate].
  destruct (getitem df "Values") as [values|] eqn:H1; [|discriminate].
  destruct (getitem df "Median") as [median|] eqn:H2; [|discriminate].
  destruct (getitem df "UCL") as [ucl|] eqn:H3; [|discriminate].
  destruct (getitem df "LCL") as [lcl|] eqn:H4; [|discriminate].
  destruct (getitem (df_viol bands) "Values") as [y_viol|] eqn:H5; [|discriminate].
  destruct (getitem (df_viol_med bands) "Values") as [y_med|] eqn:H6; [|discriminate].
  destruct (getitem (df_viol_high bands) "Values") as [y_high|] eqn:H7; [|discriminate].
  inversion H; subst. split; [done|].
  exists df, bands, values, median, ucl, lcl, y_viol, y_med, y_high.
  by repeat split.
Qed.

Lemma control_chart_ADTK_Raise_state self title value_name w e w' :
  control_chart_ADTK self title value_name w = (Raise e, w') → w' = w.
Proof.
  unfold control_chart_ADTK, bind, load, lift, ret. intros H.
  destruct (heap w !! _df self) as [df|]; [|by inversion H].
  destruct (violation_criteria df) as [bands|]; [|by inversion H].
  destruct (getitem df "Values"); [|by inversion H].
  destruct (getitem df "Median"); [|by inversion H].
  destruct (getitem df "UCL"); [|by inversion H].
  destruct (getitem df "LCL"); [|by inversion H].
  destruct (getitem (df_viol bands) "Values"); [|by inversion H].
  destruct (getitem (df_viol_med bands) "Values"); [|by inversion H].
  destruct (getitem (df_viol_high bands) "Values"); by inversion H.
Qed.

(** C9.  A table lacking one of the five required columns makes
    [control_chart_ADTK] raise, with nothing written to the store; and a
    call that returns does so with all five columns read and every one of
    the eight series built: there is no partial chart. *)
Theorem control_chart_fails_or_complete self title value_name w :
  (∀ df c, heap w !! _df self = Some df → c ∈ required_columns →
      lookup_column c (df_columns df) = None →
      ∃ e, control_chart_ADTK self title value_name w = (Raise e, w))
  ∧ (∀ fig w', control_chart_ADTK self title value_name w = (Ok fig, w') →
      length (fig_data fig) = 8%nat
      ∧ ∃ df, heap w !! _df self = Some df
          ∧ ∀ c, c ∈ required_columns → ∃ v, getitem df c = Ok v).
Proof.
  split.
  - intros df c Hdf Hc Hmiss.
    destruct (control_chart_ADTK self title value_name w) as [[fig|e] w'] eqn:E.
    + exfalso. apply control_chart_ADTK_Ok in E
        as (_ & df' & bands & ? & ? & ? & ? & ? & ? & ? & Hdf' & Hb & H1 & H2 & H3 & H4 & _).
      rewrite Hdf in Hdf'. injection Hdf' as <-.
      apply violation_criteria_Ok_column in Hb as (v & Hv).
      unfold required_columns in Hc. rewrite !elem_of_cons in Hc.
      rewrite getitem_Ok_lookup in H1, H2, H3, H4, Hv.
      destruct Hc as [Hc|[Hc|[Hc|[Hc|[Hc|Hc]]]]]; try (subst c; congruence).
      by apply elem_of_nil in Hc.
    + exists e. f_equal. by eapply control_chart_ADTK_Raise_state.
  - intros fig w' E. apply control_chart_ADTK_Ok in E
      as (_ & df & bands & ? & ? & ? & ? & ? & ? & ? & Hdf & Hb & H1 & H2 & H3 & H4 & _ & _ & _ & ->).
    split; [done|]. exists df. split; [done|].
    apply violation_criteria_Ok_column in Hb as (v & Hv).
    intros c Hc. unfold required_columns in Hc. rewrite !elem_of_cons in Hc.
    destruct Hc as [Hc|[Hc|[Hc|[Hc|[Hc|Hc]]]]]; try (subst c; eauto).
    by apply elem_of_nil in Hc.
Qed.

Lemma control_chart_fails_or_complete_witness :
  (∃ e, control_chart_ADTK (__init__ 0) "T" "Actuals" (ex_world ex_chart_no_median None)
        = (Raise e, ex_world ex_chart_no_median None))
  ∧ (∃ fig, control_chart_ADTK (__init__ 0) "T" "Actuals" (ex_world ex_chart None)
            = (Ok fig, ex_world ex_chart None)
            ∧ length (fig_data fig) = 8%nat).
Proof.
  split.
  - apply (proj1 (control_chart_fails_or_complete (__init__ 0) "T" "Actuals"
                    (ex_world ex_chart_no_median None))
             ex_chart_no_median "Median").
    + reflexivity.
    + apply list_elem_of_further, list_elem_of_here.
    + reflexivity.
  - destruct (control_chart_ADTK (__init__ 0) "T" "Actuals" (ex_world ex_chart None))
      as [[fig|e] w'] eqn:E; [|by vm_compute in E].
    exists fig.
    destruct (proj2 (control_chart_fails_or_complete (__init__ 0) "T" "Actuals"
                       (ex_world ex_chart None)) fig w' E) as [Hlen _].
    split; [|exact Hlen]. vm_compute in E. injection E as <- <-. reflexivity.
Defined.

Lemma control_chart_low_band_eval :
  control_chart_ADTK (__init__ 0) "T" "Actuals" (ex_world ex_chart None)
  = (Ok (GoFigure "T" "ggplot2"
           (chart_series "Actuals" ex_chart
              (mkBands (df_select [true; true; false] ex_chart)
                       (df_select [false; true; false] ex_chart)
                       (df_select [false; false; false] ex_chart)
                       (df_select [true; false; false] ex_chart))
              [CInt 10; CInt 20; CInt 30] [CInt 15; CInt 15; CInt 15]
              [CInt 25; CInt 25; CInt 25] [CInt 5; CInt 5; CInt 5]
              [CInt 10; CInt 20] [CInt 10; CInt 20] [] [CInt 10])),
     ex_world ex_chart None).
Proof. by vm_compute. Qed.

(** C4.  Evaluated on a table with a high violation at [t1] (value 10), a
    low one at [t2] (value 20) and none at [t3]: the figure has eight
    series, but the low-band series pairs the low band's single timestamp
    [t2] with the values of all violating rows, [10; 20]; the low band's
    own values are [20]. *)
Theorem control_chart_low_band_mispaired :
  ∃ fig bands low,
    control_chart_ADTK (__init__ 0) "T" "Actuals" (ex_world ex_chart None)
    = (Ok fig, ex_world ex_chart None)
    ∧ violation_criteria ex_chart = Ok bands
    ∧ length (fig_data fig) = 8%nat
    ∧ fig_data fig !! 5%nat = Some low
    ∧ tr_name low = "Low Probability of Violation"
    ∧ tr_x low = df_index (df_viol_low bands)
    ∧ tr_x low = [CStr "t2"]
    ∧ tr_y low = [CInt 10; CInt 20]
    ∧ getitem (df_viol_low bands) "Values" = Ok [CInt 20].
Proof.
  eexists _, _, _. split; [apply control_chart_low_band_eval|].
  split; [by vm_compute|]. by repeat split.
Qed.

(** ** Column normalisation *)

Lemma is_word_char_underscore : is_word_char "_" = false.
Proof. reflexivity. Qed.



Lemma clean_varname_run l var w :
  clean_varname l var w
  = match heap w !! l with
    | None => (Raise Dangling, w)
    | Some d =>
        match getitem d var with
        | Raise e => (Raise e, w)
        | Ok col => (Ok (clean_name var, length (heap w)),
                     add_heap w (normalized d var col))
        end
    end.
Proof.
  unfold clean_varname, bind, load, lift, alloc, ret.
  destruct (heap w !! l) as [d|]; [|done]. by destruct (getitem d var).
Qed.

Lemma lookup_replace_column_eq name vals cols :
  lookup_column name (replace_column name vals cols) = Some vals.
Proof.
  induction cols as [|[n c] cols IH]; simpl.
  - by rewrite String.eqb_refl.
  - destruct (String.eqb n name) eqn:E; simpl; by rewrite E.
Qed.

Lemma lookup_replace_column_ne name name' vals cols :
  name ≠ name' →
  lookup_column name' (replace_column name vals cols) = lookup_column name' cols.
Proof.
  intros Hne. induction cols as [|[n c] cols IH]; simpl.
  - destruct (String.eqb name name') eqn:E; [|done].
    by apply String.eqb_eq in E.
  - destruct (String.eqb n name) eqn:E; simpl.
    + apply String.eqb_eq in E as ->.
      destruct (String.eqb name name') eqn:E'; [|done].
      by apply String.eqb_eq in E'.
    + by rewrite IH.
Qed.

Lemma getitem_normalized_clean d var col :
  getitem d var = Ok col →
  getitem (normalized d var col) (clean_name var) = Ok col.
Proof.
  intros H. unfold normalized.
  destruct (String.eqb (clean_name var) var) eqn:E.
  - apply String.eqb_eq in E. by rewrite E.
  - unfold getitem. simpl. by rewrite lookup_replace_column_eq.
Qed.

Lemma getitem_normalized_other d var col name v :
  getitem d name = Ok v → ∃ v', getitem (normalized d var col) name = Ok v'.
Proof.
  intros H. unfold normalized.
  destruct (String.eqb (clean_name var) var); [eauto|].
  unfold getitem. simpl.
  destruct (decide (clean_name var = name)) as [<-|Hne].
  - rewrite lookup_replace_column_eq. eauto.
  - rewrite lookup_replace_column_ne by done.
    apply getitem_Ok_lookup in H. rewrite H. eauto.
Qed.

Lemma heap_add_heap_new w d : heap (add_heap w d) !! length (heap w) = Some d.
Proof. simpl. by rewrite lookup_app_r, Nat.sub_diag. Qed.



(** ** A frame rule for the store

    [frame n m Q]: run from a store of at least [n] objects, [m] leaves the
    first [n] objects as they were, and a returned value satisfies [Q]. *)

Lemma frame_ret {A} n (a : A) (Q : A → Prop) : Q a → frame n (ret a) Q.
Proof. intros HQ w r w' Hn [= <- <-]. repeat split; [done|]. by intros ? [= <-]. Qed.

Lemma frame_lift {A} n (r : result A) : frame n (lift r) (λ _, True).
Proof. intros w r' w' Hn [= <- <-]. by repeat split. Qed.

Lemma frame_bind {A B} n (m : M A) (k : A → M B) (P : A → Prop) (Q : B → Prop) :
  frame n m P → (∀ a, P a → frame n (k a) Q) → frame n (bind m k) Q.
Proof.
  intros Hm Hk w r w' Hn. unfold bind.
  destruct (m w) as [[a|e] w1] eqn:E; intros H.
  - destruct (Hm _ _ _ Hn E) as (Ht & Hl & HP).
    destruct (Hk a (HP a eq_refl) _ _ _ Hl H) as (Ht' & Hl' & HQ).
    split; [congruence|]. by split.
  - injection H as <- <-. destruct (Hm _ _ _ Hn E) as (Ht & Hl & _).
    repeat split; [done..|]. intros ? [=].
Qed.

Lemma frame_weaken {A} n (m : M A) (P Q : A → Prop) :
  frame n m P → (∀ a, P a → Q a) → frame n m Q.
Proof.
  intros Hm HPQ w r w' Hn E. destruct (Hm _ _ _ Hn E) as (? & ? & ?).
  repeat split; auto.
Qed.

Lemma frame_load n l : frame n (load l) (λ _, True).
Proof.
  intros w r w' Hn. unfold load.
  destruct (heap w !! l); intros [= <- <-]; by repeat split.
Qed.

Lemma frame_alloc n d : frame n (alloc d) (λ l, n ≤ l).
Proof.
  intros w r w' Hn [= <- <-]. simpl. rewrite length_app. simpl.
  split; [by rewrite take_app_le|]. split; [lia|]. by intros ? [= <-].
Qed.

Lemma frame_store n l d : n ≤ l → frame n (store l d) (λ _, True).
Proof.
  intros Hl w r w' Hn [= <- <-]. simpl. rewrite length_insert.
  split; [by rewrite take_insert_ge|]. by split.
Qed.

Lemma frame_name_df n : frame n name_df (λ _, True).
Proof.
  intros w r w' Hn. unfold name_df.
  destruct (global_df w); intros [= <- <-]; by repeat split.
Qed.

Lemma frame_random_normal n loc_ scale k :
  frame n (random_normal loc_ scale k) (λ _, True).
Proof.
  intros w r w' Hn. unfold random_normal.
  destruct (Qc_ltb scale 0); intros [= <- <-]; by repeat split.
Qed.

Create HintDb frame.
Hint Resolve frame_lift frame_load frame_alloc frame_name_df frame_random_normal : frame.

(** One step of a sequence: the first command by a known rule, then on. *)
Ltac frame_step :=
  match goal with
  | |- frame _ (ret _) _ => by apply frame_ret
  | |- frame _ (bind _ _) _ =>
      eapply frame_bind; [solve [eauto with frame]|];
      intros ? ?; cbv beta in *;
      repeat match goal with H : _ ∧ _ |- _ => destruct H end
  | |- frame _ (if ?b then _ else _) _ => destruct b
  | |- frame _ (match ?p with (_, _) => _ end) _ => destruct p
  | |- frame _ _ (λ _, True) => solve [eauto with frame]
  end.

Lemma frame_clean_varname n l var :
  frame n (clean_varname l var) (λ p, p.1 = clean_name var ∧ n ≤ p.2).
Proof. unfold clean_varname. repeat frame_step. Qed.
Hint Resolve frame_clean_varname : frame.

Lemma frame_clean_optional n l v :
  n ≤ l → frame n (clean_optional l v) (λ p, n ≤ p.2).
Proof. intros Hl. unfold clean_optional. destruct v; repeat frame_step. Qed.
Hint Resolve frame_clean_optional : frame.

Lemma frame_jitter_column n l col sd :
  n ≤ l → frame n (jitter_column l col sd) (λ _, True).
Proof.
  intros Hl. unfold jitter_column. repeat frame_step.
  by apply frame_store.
Qed.
Hint Resolve frame_jitter_column : frame.

(** The last step of a builder: the figure handed back carries the title
    that was computed. *)
Ltac title_ret :=
  apply frame_ret; unfold fig_title;
  cbn [kwarg String.eqb Ascii.eqb Bool.eqb app];
  repeat match goal with E : _.1 = clean_name _ |- _ => rewrite E; clear E end;
  match goal with |- match of_optstr ?t with _ => _ end = _ => destruct t end;
  reflexivity.

Ltac builder_step :=
  match goal with
  | |- frame _ (ret _) _ => title_ret
  | |- frame _ (bind (lift _) _) _ =>
      eapply frame_bind; [apply frame_lift|]; intros ? _
  | |- _ => frame_step
  end.

Lemma frame_histogram n self x y is_horizontal color facet_col facet_row bins
  opacity marginal template has_title title :
  frame n (histogram self x y is_horizontal color facet_col facet_row bins
             opacity marginal template has_title title)
    (λ fig, fig_title fig
            = default_title has_title title ("Histogram of " +:+ clean_name x)).
Proof. unfold histogram. repeat builder_step. Qed.

Lemma frame_linechart n self x y color template has_title title :
  frame n (linechart self x y color template has_title title)
    (λ fig, fig_title fig
            = default_title has_title title ("Time Series of " +:+ clean_name y)).
Proof. unfold linechart. repeat builder_step. Qed.

Lemma frame_scatterplot n self x y color jitter jitter_sd marg_x marg_y
  trendline opacity template has_title title :
  frame n (scatterplot self x y color jitter jitter_sd marg_x marg_y
             trendline opacity template has_title title)
    (λ fig, fig_title fig
            = default_title has_title title
                ("Scatter Plot of " +:+ clean_name x +:+ " and " +:+ clean_name y)).
Proof.
  unfold scatterplot. do 2 builder_step.
  eapply frame_bind with (P := λ _, True).
  { destruct jitter; repeat frame_step. }
  intros _ _. repeat builder_step.
Qed.

Lemma frame_barplot_basic n self x template has_title is_horizontal title :
  frame n (barplot_basic self x template has_title is_horizontal title)
    (λ fig, fig_title fig
            = default_title has_title title ("Bar plot of " +:+ clean_name x)).
Proof. unfold barplot_basic. repeat builder_step. Qed.

Lemma frame_barplot_stacked n self x color opacity template has_title barmode
  is_horizontal title is_percent show_num :
  frame n (barplot_stacked self x color opacity template has_title barmode
             is_horizontal title is_percent show_num)
    (λ fig, fig_title fig
            = if has_title
              then default_title true title
                     ("Bar Plot of " +:+ clean_name x +:+ " and "
                      +:+ clean_name color)
              else None).
Proof.
  unfold barplot_stacked, default_title.
  do 6 builder_step.
  destruct is_horizontal, is_percent, show_num; repeat builder_step.
Qed.

Lemma frame_barplot n self x color opacity template has_title barmode
  is_horizontal title is_percent show_num :
  frame n (barplot self x color opacity template has_title barmode
             is_horizontal title is_percent show_num) (λ _, True).
Proof.
  unfold barplot.
  destruct color as [c|]; [destruct (truthy (Some c))|];
    (eapply frame_weaken;
       [first [apply frame_barplot_stacked | apply frame_barplot_basic] | done]).
Qed.

Lemma frame_control_chart_ADTK n self title value_name :
  frame n (control_chart_ADTK self title value_name) (λ _, True).
Proof. unfold control_chart_ADTK. repeat frame_step. Qed.

(** What a returned value satisfies. *)
Lemma frame_post {A} (m : M A) Q w a w' :
  frame 0 m Q → m w = (Ok a, w') → Q a.
Proof. intros Hm E. destruct (Hm w _ w' (Nat.le_0_l _) E) as (_ & _ & HQ). eauto. Qed.

Lemma frame_lookup {A} (m : M A) Q w r w' l d :
  frame (length (heap w)) m Q → m w = (r, w') →
  heap w !! l = Some d → heap w' !! l = Some d.
Proof.
  intros Hm E Hl. destruct (Hm w r w' (le_n _) E) as (Ht & _ & _).
  rewrite firstn_all in Ht. rewrite <- Ht in Hl.
  by apply lookup_take_Some in Hl as [? _].
Qed.

(** C7.  Whatever a builder is called with, and whether it returns or
    raises, every table that was in the store before the call -- the
    caller's among them -- is the same table afterwards: derived columns
    and jittered values are written to tables allocated during the call. *)
Theorem builders_leave_tables_unchanged w l d self :
  heap w !! l = Some d →
  (∀ x y is_horizontal color facet_col facet_row bins opacity marginal template
     has_title title,
     heap (histogram self x y is_horizontal color facet_col facet_row bins
             opacity marginal template has_title title w).2 !! l = Some d)
  ∧ (∀ x color opacity template has_title barmode is_horizontal title
       is_percent show_num,
     heap (barplot self x color opacity template has_title barmode
             is_horizontal title is_percent show_num w).2 !! l = Some d)
  ∧ (∀ x y color jitter jitter_sd marg_x marg_y trendline opacity template
       has_title title,
     heap (scatterplot self x y color jitter jitter_sd marg_x marg_y trendline
             opacity template has_title title w).2 !! l = Some d)
  ∧ (∀ x y color template has_title title,
     heap (linechart self x y color template has_title title w).2 !! l = Some d)
  ∧ (∀ title value_name,
     heap (control_chart_ADTK self title value_name w).2 !! l = Some d).
Proof.
  intros Hl. repeat split; intros.
  - eapply frame_lookup; [apply frame_histogram | apply surjective_pairing | done].
  - eapply frame_lookup; [apply frame_barplot | apply surjective_pairing | done].
  - eapply frame_lookup; [apply frame_scatterplot | apply surjective_pairing | done].
  - eapply frame_lookup; [apply frame_linechart | apply surjective_pairing | done].
  - eapply frame_lookup;
      [apply frame_control_chart_ADTK | apply surjective_pairing | done].
Qed.

Lemma builders_leave_tables_unchanged_witness :
  ∃ fig w',
    scatterplot (__init__ 0) "sepal length" "width" None true (dec 1 2)
      None None None 1%Qc "ggplot2" true None (ex_world ex_xy (Some 0))
    = (Ok fig, w')
    ∧ getitem ex_xy "width" = Ok [CInt 3; CInt 4]
    ∧ (∃ d', w'.(heap) !! 2 = Some d'
             ∧ getitem d' "width" = Ok [CFloat (dec 7 2); CFloat (dec 9 2)])
    ∧ heap w' !! 0 = Some ex_xy.
Proof.
  destruct (scatterplot (__init__ 0) "sepal length" "width" None true (dec 1 2)
      None None None 1%Qc "ggplot2" true None (ex_world ex_xy (Some 0)))
    as [[fig|e] w'] eqn:E; [|by vm_compute in E].
  exists fig, w'. split; [done|]. split; [done|].
  pose proof (proj1 (proj2 (proj2
    (builders_leave_tables_unchanged (ex_world ex_xy (Some 0)) 0 ex_xy
       (__init__ 0) eq_refl)))
    "sepal length" "width" None true (dec 1 2) None None None 1%Qc "ggplot2"
    true None) as Hkeep.
  rewrite E in Hkeep. split; [|exact Hkeep].
  vm_compute in E. injection E as _ <-. eexists. split; reflexivity.
Defined.

(** ** scatterplot with jitter *)

(** C5.  With jitter requested, [scatterplot] evaluates [len(df)], and [df]
    is a name of the module, not of the method.  Unless the module has
    bound it, the call raises [NameError] whatever [jitter_sd] is, zero
    included, and plots nothing. *)
Theorem scatterplot_jitter_unbound_df w self d x y xs ys color jitter_sd
  marg_x marg_y trendline opacity template has_title title :
  heap w !! _df self = Some d →
  getitem d x = Ok xs →
  getitem d y = Ok ys →
  global_df w = None →
  (scatterplot self x y color true jitter_sd marg_x marg_y trendline opacity
     template has_title title w).1 = Raise (NameError "df").
Proof.
  intros Hd Hx Hy Hg. unfold scatterplot, bind.
  rewrite clean_varname_run, Hd, Hx. simpl.
  rewrite clean_varname_run, heap_add_heap_new.
  destruct (getitem_normalized_other d x xs y ys Hy) as [ys' Hy'].
  rewrite Hy'. simpl.
  unfold jitter_column, bind, load.
  set (d1 := normalized d x xs). set (d2 := normalized d1 y ys').
  change (heap (add_heap (add_heap w d1) d2) !! length (heap w ++ [d1]))
    with (heap (add_heap (add_heap w d1) d2) !! length (heap (add_heap w d1))).
  rewrite heap_add_heap_new.
  destruct (getitem_normalized_other d1 y ys' (clean_name x) xs
              (getitem_normalized_clean d x xs Hx)) as [xs' Hx'].
  fold d2 in Hx'. unfold lift at 1. rewrite Hx'.
  unfold name_df. simpl. by rewrite Hg.
Qed.

Lemma scatterplot_jitter_unbound_df_witness :
  (scatterplot (__init__ 0) "sepal length" "width" None true 0%Qc None None None
     1%Qc "ggplot2" true None (ex_world ex_xy None)).1 = Raise (NameError "df").
Proof.
  by apply (scatterplot_jitter_unbound_df (ex_world ex_xy None) (__init__ 0) ex_xy
              "sepal length" "width"
              [CFloat (dec 51 10); CFloat (dec 49 10)] [CInt 3; CInt 4]).
Defined.

(** ** Titles *)

Lemma default_title_enabled_absent default :
  default_title true None default = Some default.
Proof. done. Qed.

Lemma default_title_enabled_explicit t default :
  t ≠ "" → default_title true (Some t) default = Some t.
Proof.
  intros Ht. unfold default_title, truthy.
  destruct (String.eqb t "") eqn:E; [|done]. by apply String.eqb_eq in E.
Qed.

Lemma default_title_disabled t default : default_title false t default = t.
Proof. done. Qed.

Lemma barplot_no_color self x opacity template has_title barmode is_horizontal
  title is_percent show_num :
  barplot self x None opacity template has_title barmode is_horizontal title
    is_percent show_num
  = barplot_basic self x template has_title is_horizontal title.
Proof. reflexivity. Qed.

Lemma barplot_color self x c opacity template has_title barmode is_horizontal
  title is_percent show_num :
  c ≠ "" →
  barplot self x (Some c) opacity template has_title barmode is_horizontal title
    is_percent show_num
  = barplot_stacked self x c opacity template has_title barmode is_horizontal
      title is_percent show_num.
Proof.
  intros Hc. unfold barplot, truthy.
  destruct (String.eqb c "") eqn:E; [|done]. by apply String.eqb_eq in E.
Qed.

(** C6.  Called with titles disabled and an explicit title, [histogram],
    [scatterplot], [linechart] and the basic path of [barplot] hand the
    explicit title to the plotting call unchanged; only the stacked path of
    [barplot] drops it. *)
Theorem disabled_title_still_carried :
  (∃ fig w',
     histogram (__init__ 0) "width" None false None None None 20 1%Qc None
       "ggplot2" false (Some "My title") (ex_world ex_xy None) = (Ok fig, w')
     ∧ fig_title fig = Some "My title")
  ∧ (∃ fig w',
     scatterplot (__init__ 0) "sepal length" "width" None false (dec 1 10)
       None None None 1%Qc "ggplot2" false (Some "My title")
       (ex_world ex_xy None) = (Ok fig, w')
     ∧ fig_title fig = Some "My title")
  ∧ (∃ fig w',
     linechart (__init__ 0) "sepal length" "width" None "ggplot2" false
       (Some "My title") (ex_world ex_xy None) = (Ok fig, w')
     ∧ fig_title fig = Some "My title")
  ∧ (∃ fig w',
     barplot (__init__ 0) "x" None 1%Qc "ggplot2" false "stack" false
       (Some "My title") false false (ex_world ex_scenario None) = (Ok fig, w')
     ∧ fig_title fig = Some "My title")
  ∧ (∃ fig w',
     barplot (__init__ 0) "x" (Some "c") 1%Qc "ggplot2" false "stack" false
       (Some "My title") false false (ex_world ex_scenario None) = (Ok fig, w')
     ∧ fig_title fig = None).
Proof.
  split.
  { destruct (histogram (__init__ 0) "width" None false None None None 20 1%Qc
                None "ggplot2" false (Some "My title") (ex_world ex_xy None))
      as [[fig|e] w'] eqn:E; [|vm_compute in E; discriminate].
    exists fig, w'. split; [reflexivity|].
    exact (frame_post _ _ _ _ _ (frame_histogram 0 _ _ _ _ _ _ _ _ _ _ _ _ _) E). }
  split.
  { destruct (scatterplot (__init__ 0) "sepal length" "width" None false
                (dec 1 10) None None None 1%Qc "ggplot2" false (Some "My title")
                (ex_world ex_xy None))
      as [[fig|e] w'] eqn:E; [|vm_compute in E; discriminate].
    exists fig, w'. split; [reflexivity|].
    exact (frame_post _ _ _ _ _ (frame_scatterplot 0 _ _ _ _ _ _ _ _ _ _ _ _ _) E). }
  split.
  { destruct (linechart (__init__ 0) "sepal length" "width" None "ggplot2" false
                (Some "My title") (ex_world ex_xy None))
      as [[fig|e] w'] eqn:E; [|vm_compute in E; discriminate].
    exists fig, w'. split; [reflexivity|].
    exact (frame_post _ _ _ _ _ (frame_linechart 0 _ _ _ _ _ _ _) E). }
  split.
  { rewrite barplot_no_color.
    destruct (barplot_basic (__init__ 0) "x" "ggplot2" false false
                (Some "My title") (ex_world ex_scenario None))
      as [[fig|e] w'] eqn:E; [|vm_compute in E; discriminate].
    exists fig, w'. split; [reflexivity|].
    exact (frame_post _ _ _ _ _ (frame_barplot_basic 0 _ _ _ _ _ _) E). }
  rewrite barplot_color by discriminate.
  destruct (barplot_stacked (__init__ 0) "x" "c" 1%Qc "ggplot2" false "stack"
              false (Some "My title") false false (ex_world ex_scenario None))
    as [[fig|e] w'] eqn:E; [|vm_compute in E; discriminate].
  exists fig, w'. split; [reflexivity|].
  exact (frame_post _ _ _ _ _ (frame_barplot_stacked 0 _ _ _ _ _ _ _ _ _ _ _) E).
Qed.

(** ** Sorted distinct keys *)

Section lex_le.
Context {A : Type} `{Lexico A} `{!StrictOrder (@lexico A _)}
  `{!TrichotomyT (@lexico A _)}.

Global Instance lex_le_total : Total (@lex_le A _).
Proof.
  intros a b. unfold lex_le.
  destruct (trichotomy lexico a b) as [Hab|[->|Hba]].
  - left. intros Hba. exact (irreflexivity lexico a (transitivity Hab Hba)).
  - left. apply (irreflexivity lexico).
  - right. intros Hab. exact (irreflexivity lexico a (transitivity Hab Hba)).
Qed.

Global Instance lex_le_trans : Transitive (@lex_le A _).
Proof.
  intros a b c Hab Hbc Hca. unfold lex_le in *.
  destruct (trichotomy lexico a b) as [Hlt|[->|Hgt]]; [|done..].
  apply Hbc. by trans a.
Qed.

Lemma lex_le_antisym (a b : A) : lex_le a b → lex_le b a → a = b.
Proof.
  unfold lex_le. intros Hab Hba.
  by destruct (trichotomy lexico a b) as [?|[?|?]].
Qed.

Context `{EqDecision A}.

Lemma elem_of_sorted_keys (l : list A) x : x ∈ sorted_keys l ↔ x ∈ l.
Proof.
  unfold sorted_keys. rewrite merge_sort_Permutation. apply elem_of_remove_dups.
Qed.

Lemma NoDup_sorted_keys (l : list A) : NoDup (sorted_keys l).
Proof.
  unfold sorted_keys. rewrite merge_sort_Permutation. apply NoDup_remove_dups.
Qed.

Lemma StronglySorted_sorted_keys (l : list A) :
  StronglySorted lex_le (sorted_keys l).
Proof. apply StronglySorted_merge_sort; apply _. Qed.
End lex_le.

(** ** Groups of a sorted list

    Splitting a list that is sorted by a key into the sub-lists of equal
    key, taken in sorted key order, and concatenating them gives the list
    back. *)
Section groups.
Context {A K : Type} `{Lexico K} `{!StrictOrder (@lexico K _)}
  `{!TrichotomyT (@lexico K _)} `{EqDecision K} (key : A → K).

Lemma filter_all (P : A → Prop) `{∀ a, Decision (P a)} l :
  Forall P l → filter P l = l.
Proof.
  induction 1 as [|a l Ha _ IH]; [done|].
  by rewrite filter_cons_True, IH.
Qed.

Lemma filter_none (P : A → Prop) `{∀ a, Decision (P a)} l :
  Forall (λ a, ¬ P a) l → filter P l = [].
Proof.
  induction 1 as [|a l Ha _ IH]; [done|].
  by rewrite filter_cons_False.
Qed.

Lemma StronglySorted_fmap_filter (P : A → Prop) `{∀ a, Decision (P a)} l :
  StronglySorted lex_le (key <$> l) →
  StronglySorted lex_le (key <$> filter P l).
Proof.
  induction l as [|a l IH]; [done|]. rewrite fmap_cons.
  intros [Hs Ha]%StronglySorted_inv. rewrite filter_cons.
  destruct (decide (P a)); [|by apply IH].
  rewrite fmap_cons. constructor; [by apply IH|].
  rewrite Forall_fmap in Ha |- *.
  apply Forall_forall. intros b [_ Hb]%list_elem_of_filter.
  by apply (proj1 (Forall_forall _ _) Ha).
Qed.

Lemma filter_key_least k l :
  StronglySorted lex_le (key <$> l) →
  Forall (λ a, lex_le k (key a)) l →
  filter (λ a, key a = k) l ++ filter (λ a, key a ≠ k) l = l.
Proof.
  induction l as [|a l IH]; [done|]. rewrite fmap_cons.
  intros [Hs Ha]%StronglySorted_inv [Hka Hk]%Forall_cons.
  rewrite !filter_cons. destruct (decide (key a = k)) as [Hak|Hak].
  - rewrite decide_False by tauto. simpl. f_equal. by apply IH.
  - rewrite decide_True by done.
    assert (Forall (λ b, key b ≠ k) l) as Hne.
    { rewrite Forall_fmap in Ha. eapply Forall_impl; [exact Ha|].
      intros b Hab E. simpl in Hab. rewrite E in Hab.
      apply Hak. by apply lex_le_antisym. }
    rewrite (filter_none (λ b, key b = k)) by done.
    by rewrite (filter_all (λ b, key b ≠ k)).
Qed.

Lemma concat_groups_aux ks : ∀ l,
  StronglySorted lex_le ks → NoDup ks →
  (∀ a, a ∈ l → key a ∈ ks) →
  StronglySorted lex_le (key <$> l) →
  concat ((λ k, filter (λ a, key a = k) l) <$> ks) = l.
Proof.
  induction ks as [|k ks IH]; intros l Hks Hnd Hin Hl.
  - destruct l as [|a l]; [done|].
    by destruct (proj1 (elem_of_nil (key a)) (Hin a (list_elem_of_here _ _))).
  - apply StronglySorted_inv in Hks as [Hks Hk].
    apply NoDup_cons in Hnd as [Hk' Hnd].
    rewrite fmap_cons, concat_cons.
    trans (filter (λ a, key a = k) l ++ filter (λ a, key a ≠ k) l); last first.
    { apply filter_key_least; [done|].
      apply Forall_forall. intros a Ha.
      apply Hin, elem_of_cons in Ha as [->|Ha]; [apply (irreflexivity lexico)|].
      by apply (proj1 (Forall_forall _ _) Hk). }
    f_equal.
    rewrite <- (IH (filter (λ a, key a ≠ k) l)); try done.
    + f_equal. apply list_fmap_ext. intros _ k0 Hk0%list_elem_of_lookup_2.
      rewrite list_filter_filter. apply list_filter_iff.
      intros a. split; [|tauto]. intros ->. split; [done|]. by intros ->.
    + intros a [Hak Ha]%list_elem_of_filter.
      apply Hin, elem_of_cons in Ha as [?|?]; done.
    + by apply StronglySorted_fmap_filter.
Qed.

Lemma concat_groups l :
  StronglySorted lex_le (key <$> l) →
  concat ((λ k, filter (λ a, key a = k) l) <$> sorted_keys (key <$> l)) = l.
Proof.
  intros Hl. apply concat_groups_aux; [| |intros a Ha|done].
  - apply StronglySorted_sorted_keys.
  - apply NoDup_sorted_keys.
  - apply elem_of_sorted_keys, list_elem_of_fmap. eauto.
Qed.
End groups.

(** ** Canonical rationals seen as rationals *)

Lemma this_plus (x y : Qc) : (this (x + y)%Qc == this x + this y)%Q.
Proof. apply Qred_correct. Qed.
Lemma this_minus (x y : Qc) : (this (x - y)%Qc == this x - this y)%Q.
Proof.
  unfold Qcminus. rewrite this_plus. unfold Qcopp, Q2Qc, this at 2.
  by rewrite Qred_correct.
Qed.
Lemma this_mult (x y : Qc) : (this (x * y)%Qc == this x * this y)%Q.
Proof. apply Qred_correct. Qed.
Lemma this_div (x y : Qc) : (this (x / y)%Qc == this x / this y)%Q.
Proof.
  unfold Qcdiv. rewrite this_mult. unfold Qcinv, Q2Qc, this at 2.
  by rewrite Qred_correct.
Qed.
Lemma this_of_Z (z : Z) : this (Qc_of_Z z) = inject_Z z.
Proof. reflexivity. Qed.
Lemma this_dec n d : (this (dec n d) == n # d)%Q.
Proof. apply Qred_correct. Qed.

Lemma Qc_gtb_true (a b : Qc) : Qc_gtb a b = true ↔ (this b < this a)%Q.
Proof. unfold Qc_gtb. by rewrite bool_decide_eq_true. Qed.
Lemma Qc_ltb_true (a b : Qc) : Qc_ltb a b = true ↔ (this a < this b)%Q.
Proof. unfold Qc_ltb. by rewrite bool_decide_eq_true. Qed.
Lemma Qc_gtb_false (a b : Qc) : Qc_gtb a b = false ↔ (this a <= this b)%Q.
Proof.
  unfold Qc_gtb. rewrite bool_decide_eq_false. unfold Qclt.
  split; [apply Qnot_lt_le | apply Qle_not_lt].
Qed.
Lemma Qc_ltb_false (a b : Qc) : Qc_ltb a b = false ↔ (this b <= this a)%Q.
Proof.
  unfold Qc_ltb. rewrite bool_decide_eq_false. unfold Qclt.
  split; [apply Qnot_lt_le | apply Qle_not_lt].
Qed.

(** ** Rounding *)

(** [rint] is the nearest integer, and on a tie the even one. *)
Lemma rint_spec (q : Qc) :
  (inject_Z (rint q) - (1#2) <= this q <= inject_Z (rint q) + (1#2))%Q
  ∧ ((this q == inject_Z (rint q) + (1#2))%Q
     ∨ (this q == inject_Z (rint q) - (1#2))%Q → Z.even (rint q) = true).
Proof.
  unfold rint.
  pose proof (Qfloor_le (this q)) as Hlo.
  pose proof (Qlt_floor (this q)) as Hhi.
  rewrite inject_Z_plus in Hhi. change (inject_Z 1) with 1%Q in Hhi.
  set (f := Qfloor (this q)) in *.
  destruct (Qc_ltb _ _) eqn:E1.
  - apply Qc_ltb_true in E1. rewrite this_minus, this_dec, this_of_Z in E1.
    split; [lra|]. intros [H|H]; lra.
  - apply Qc_ltb_false in E1. rewrite this_minus, this_dec, this_of_Z in E1.
    destruct (Qc_gtb _ _) eqn:E2.
    + apply Qc_gtb_true in E2. rewrite this_minus, this_dec, this_of_Z in E2.
      rewrite inject_Z_plus. change (inject_Z 1) with 1%Q.
      split; [lra|]. intros [H|H]; lra.
    + apply Qc_gtb_false in E2. rewrite this_minus, this_dec, this_of_Z in E2.
      destruct (Z.even f) eqn:E3.
      * split; [lra|]. done.
      * rewrite inject_Z_plus. change (inject_Z 1) with 1%Q.
        split; [lra|]. intros _. rewrite Z.even_add, E3. done.
Qed.

Lemma this_np_round_2 (q : Qc) :
  (this (np_round q 2) == inject_Z (rint (q * pow10 2)) / 100)%Q.
Proof. unfold np_round. by rewrite this_div, this_of_Z. Qed.


(** ** Sums *)


Lemma sumZ_fmap_add {A} (f g : A → Z) l :
  sumZ ((λ a, f a + g a)%Z <$> l) = (sumZ (f <$> l) + sumZ (g <$> l))%Z.
Proof.
  unfold sumZ. induction l as [|a l IH]; [done|].
  rewrite !fmap_cons. cbn [foldr]. rewrite IH. lia.
Qed.

Lemma sumZ_cons z l : sumZ (z :: l) = (z + sumZ l)%Z.
Proof. reflexivity. Qed.

Lemma sumZ_indicator_notin {A} `{EqDecision A} (P : A → Prop)
  `{∀ a, Decision (P a)} (r : A) ks :
  r ∉ ks →
  sumZ ((λ k, if decide (k = r) then 1 else 0)%Z <$> filter P ks) = 0%Z.
Proof.
  induction ks as [|k ks IH]; [done|].
  intros [Hne Hk]%not_elem_of_cons. rewrite filter_cons.
  destruct (decide (P k)); [|by apply IH].
  rewrite fmap_cons, sumZ_cons, IH by done.
  rewrite decide_False by done. lia.
Qed.

Lemma sumZ_indicator {A} `{EqDecision A} (P : A → Prop) `{∀ a, Decision (P a)}
  (r : A) ks :
  NoDup ks → r ∈ ks →
  sumZ ((λ k, if decide (k = r) then 1 else 0)%Z <$> filter P ks)
  = if decide (P r) then 1%Z else 0%Z.
Proof.
  induction 1 as [|k ks Hk Hnd IH]; [by intros ?%elem_of_nil|].
  intros [->|Hr]%elem_of_cons.
  - rewrite filter_cons. destruct (decide (P k)).
    + rewrite fmap_cons, sumZ_cons, sumZ_indicator_notin by done.
      rewrite decide_True by done. lia.
    + by apply sumZ_indicator_notin.
  - rewrite filter_cons. destruct (decide (P k)); [|by apply IH].
    rewrite fmap_cons, sumZ_cons, IH by done.
    rewrite decide_False by (intros ->; done). lia.
Qed.

(** ** Counting rows per key *)

(** The counts of the keys of one primary category add up to the number of
    rows of that category. *)
Lemma sum_count_key_primary (k1 : cell) (ks rows : list (list cell)) :
  NoDup ks → (∀ r, r ∈ rows → r ∈ ks) →
  sumZ ((λ k, count_key k rows) <$> filter (λ k, k !!! 0 = k1) ks)
  = count_primary k1 rows.
Proof.
  intros Hnd. unfold count_key, count_primary.
  induction rows as [|r rows IH]; intros Hin.
  - induction (filter _ ks) as [|? ? IH']; [done|].
    rewrite fmap_cons, sumZ_cons, IH'. done.
  - rewrite (list_fmap_ext _
      (λ k, (if decide (k = r) then 1 else 0)
            + Z.of_nat (length (filter (λ r0, r0 = k) rows)))%Z); last first.
    { intros _ k _. rewrite filter_cons.
      destruct (decide (r = k)) as [->|Hne].
      - rewrite decide_True by done. cbn [length]. lia.
      - rewrite decide_False by (intros ->; done). lia. }
    rewrite sumZ_fmap_add, IH by (intros r' Hr'; apply Hin; by right).
    rewrite (sumZ_indicator (λ k, k !!! 0 = k1) r ks Hnd) by (apply Hin; by left).
    rewrite filter_cons. destruct (decide (r !!! 0 = k1)); cbn [length]; lia.
Qed.

Lemma count_key_pos k rows : k ∈ rows → (0 < count_key k rows)%Z.
Proof.
  intros Hk. unfold count_key.
  assert (k ∈ filter (λ r, r = k) rows) as Hf by (by apply list_elem_of_filter).
  destruct (filter _ rows); [by apply elem_of_nil in Hf|]. simpl. lia.
Qed.


(** ** The series [groupby(...).size()] returns *)

Lemma groupby_size_unfold df by_ :
  groupby_size df by_
  = (cols <~ rmap (getitem df) by_ ;; Ok (size_series by_ (key_rows cols))).
Proof. reflexivity. Qed.

Lemma zip_rows_nonempty cols : Forall (λ r, r ≠ []) (zip_rows cols).
Proof.
  induction cols as [|c cols IH]; [constructor|]. simpl.
  destruct cols as [|c' cols].
  - apply Forall_fmap, Forall_forall. by intros a _.
  - clear IH. generalize (zip_rows (c' :: cols)). intros l. revert l.
    induction c as [|a c IHc]; intros [|r l]; simpl; constructor; by auto.
Qed.

Lemma key_rows_nonempty cols : Forall (λ r, r ≠ []) (key_rows cols).
Proof.
  apply Forall_forall. intros r [_ Hr]%list_elem_of_filter.
  exact (proj1 (Forall_forall _ _) (zip_rows_nonempty cols) r Hr).
Qed.

Lemma lex_le_head (l1 l2 : list cell) :
  l1 ≠ [] → l2 ≠ [] → lex_le l1 l2 → lex_le (l1 !!! 0) (l2 !!! 0).
Proof.
  destruct l1 as [|a l1], l2 as [|b l2]; try done. intros _ _ Hle Hba.
  apply Hle. by left.
Qed.

Lemma StronglySorted_heads (ks : list (list cell)) :
  Forall (λ r, r ≠ []) ks → StronglySorted lex_le ks →
  StronglySorted lex_le ((λ k, k !!! 0) <$> ks).
Proof.
  induction 2 as [|k ks Hs IH Hk]; [constructor|].
  apply Forall_cons in H as [Hk0 Hks]. rewrite fmap_cons.
  constructor; [by apply IH|]. apply Forall_fmap, Forall_forall.
  intros k' Hk'. simpl. apply lex_le_head; [done| |].
  - by apply (proj1 (Forall_forall _ _) Hks).
  - by apply (proj1 (Forall_forall _ _) Hk).
Qed.

Lemma concat_fmap_fmap {A B K} (f : A → B) (g : K → list A) (ks : list K) :
  concat ((λ k, f <$> g k) <$> ks) = f <$> concat (g <$> ks).
Proof.
  induction ks as [|k ks IH]; [done|].
  rewrite !fmap_cons, !concat_cons, fmap_app. by rewrite IH.
Qed.

Lemma filter_fmap_key {A B} (f : A → B) (P : B → Prop) `{∀ b, Decision (P b)}
  (l : list A) :
  filter P (f <$> l) = f <$> filter (λ a, P (f a)) l.
Proof.
  induction l as [|a l IH]; [done|].
  rewrite fmap_cons, !filter_cons.
  destruct (decide (P (f a))); by rewrite ?fmap_cons, IH.
Qed.

(** What [groupby(level = 0).apply(...)] hands back, row by row: each
    count as a percentage of the rows of its primary category. *)
Lemma apply_values_percent names rows :
  Forall (λ r : list cell, r ≠ []) rows →
  apply_values percent_of_group (groupby_level0 (size_series names rows))
  = CFloat <$> ((λ k, percent (count_key k rows) (count_primary (k !!! 0) rows))
                <$> sorted_keys rows).
Proof.
  intros Hne. unfold apply_values, groupby_level0, size_series. simpl s_rows.
  f_equal.
  set (rows_s := (λ k, (k, count_key k rows)) <$> sorted_keys rows).
  set (F := λ r : list cell * Z,
         percent r.2 (sumZ (snd <$> filter (λ r', level0 r' = level0 r) rows_s))).
  rewrite <- list_fmap_compose.
  rewrite (list_fmap_ext _ (λ k, F <$> filter (λ r, level0 r = k) rows_s));
    last first.
  { intros _ k _. simpl. unfold percent_of_group.
    apply list_fmap_ext. intros _ r [Hr _]%list_elem_of_lookup_2%list_elem_of_filter.
    unfold F, percent. by rewrite Hr. }
  rewrite (concat_fmap_fmap F (λ k, filter (λ r, level0 r = k) rows_s)).
  rewrite (concat_groups level0 rows_s); last first.
  { unfold rows_s. rewrite <- list_fmap_compose.
    change (StronglySorted lex_le ((λ k : list cell, k !!! 0) <$> sorted_keys rows)).
    apply StronglySorted_heads; [|apply StronglySorted_sorted_keys].
    apply Forall_forall. intros k Hk. apply (proj1 (elem_of_sorted_keys _ _)) in Hk.
    exact (proj1 (Forall_forall _ _) Hne k Hk). }
  unfold rows_s at 1. rewrite <- !list_fmap_compose.
  apply list_fmap_ext. intros _ k _. simpl. unfold F. simpl. f_equal.
  unfold rows_s.
  rewrite (filter_fmap_key _ (λ r', level0 r' = level0 (k, count_key k rows))).
  rewrite <- list_fmap_compose.
  apply (sum_count_key_primary (k !!! 0) (sorted_keys rows) rows).
  - apply NoDup_sorted_keys.
  - intros r Hr. by apply elem_of_sorted_keys.
Qed.

Lemma series_round_floats qs :
  series_round (CFloat <$> qs) 2 = Ok (CFloat <$> ((λ q, np_round q 2) <$> qs)).
Proof.
  unfold series_round. induction qs as [|q qs IH]; [done|].
  rewrite !fmap_cons. simpl. by rewrite IH.
Qed.

(** ** The aggregate of the stacked path *)

Lemma length_range_index n : length (range_index n) = n.
Proof. unfold range_index. by rewrite length_fmap, length_seq. Qed.

Lemma rmap_getitem_2 df x color :
  rmap (getitem df) [x; color]
  = (xs <~ getitem df x ;; cs <~ getitem df color ;; Ok [xs; cs]).
Proof.
  cbn [rmap]. destruct (getitem df x); [|done]. cbn [rbind].
  by destruct (getitem df color).
Qed.

Lemma reset_index_2 x color rows :
  reset_index (size_series [x; color] rows)
  = if bool_decide (x ≠ color) then
      Ok (mkDataFrame (range_index (length (sorted_keys rows)))
            [(x, (λ k, k !!! 0) <$> sorted_keys rows);
             (color, (λ k, k !!! 1) <$> sorted_keys rows);
             ("0", (λ k, CInt (count_key k rows)) <$> sorted_keys rows)])
    else Raise ValueError.
Proof.
  unfold reset_index, size_series. cbn [s_names s_rows].
  assert (NoDup [x; color] ↔ x ≠ color) as Hnd.
  { rewrite NoDup_cons, list_elem_of_singleton. split; [tauto|].
    intros ?. split; [done|apply NoDup_singleton]. }
  repeat case_bool_decide; try tauto.
  rewrite length_fmap. cbn [imap app compose].
  rewrite <- !list_fmap_compose. reflexivity.
Qed.

Lemma stacked_aggregate_eq df x color xs cs :
  getitem df x = Ok xs → getitem df color = Ok cs →
  stacked_aggregate df x color
  = if bool_decide (x ≠ color) && negb (String.eqb x "Percentage")
       && negb (String.eqb color "Percentage")
    then Ok (stacked_table x color (key_rows [xs; cs]))
    else Raise ValueError.
Proof.
  intros Hx Hc. unfold stacked_aggregate.
  rewrite !groupby_size_unfold, rmap_getitem_2, Hx, Hc. cbn [rbind].
  rewrite reset_index_2.
  destruct (bool_decide (x ≠ color)); [|done]. cbn [rbind andb].
  rewrite apply_values_percent by apply key_rows_nonempty.
  set (rows := key_rows [xs; cs]). set (keys := sorted_keys rows).
  unfold setitem at 1. unfold len. cbn [df_index df_columns].
  rewrite !length_fmap, length_range_index, Nat.eqb_refl.
  cbn [replace_column rbind].
  destruct (String.eqb x "Percentage") eqn:Ex; [done|].
  destruct (String.eqb color "Percentage") eqn:Ec; [done|].
  cbn [String.eqb Ascii.eqb Bool.eqb negb].
  unfold set_columns. cbn [df_index df_columns length Nat.eqb fmap list_fmap zip zip_with snd rbind].
  unfold getitem. cbn [df_columns lookup_column]. rewrite Ex, Ec.
  cbn [String.eqb Ascii.eqb Bool.eqb rbind].
  rewrite series_round_floats. cbn [rbind].
  unfold setitem, len. cbn [df_index df_columns].
  rewrite !length_fmap, length_range_index, Nat.eqb_refl.
  cbn [replace_column]. rewrite Ex, Ec. cbn [String.eqb Ascii.eqb Bool.eqb].
  unfold stacked_table. fold rows. fold keys. f_equal. f_equal.
  repeat f_equal. by rewrite <- list_fmap_compose.
Qed.

Lemma stacked_aggregate_Ok df x color agg :
  stacked_aggregate df x color = Ok agg →
  ∃ xs cs, getitem df x = Ok xs ∧ getitem df color = Ok cs
    ∧ agg = stacked_table x color (key_rows [xs; cs]).
Proof.
  intros H. destruct (getitem df x) as [xs|e] eqn:Hx; last first.
  { unfold stacked_aggregate in H.
    rewrite groupby_size_unfold, rmap_getitem_2, Hx in H. discriminate. }
  destruct (getitem df color) as [cs|e] eqn:Hc; last first.
  { unfold stacked_aggregate in H.
    rewrite groupby_size_unfold, rmap_getitem_2, Hx, Hc in H. discriminate. }
  rewrite (stacked_aggregate_eq df x color xs cs Hx Hc) in H.
  destruct (_ && _); [|discriminate]. injection H as <-. eauto.
Qed.

(** ** The aggregate of the basic path *)

Lemma rmap_getitem_1 df x :
  rmap (getitem df) [x] = (xs <~ getitem df x ;; Ok [xs]).
Proof. cbn [rmap]. by destruct (getitem df x). Qed.

Lemma reset_index_1 x rows :
  reset_index (size_series [x] rows)
  = Ok (mkDataFrame (range_index (length (sorted_keys rows)))
          [(x, (λ k, k !!! 0) <$> sorted_keys rows);
           ("0", (λ k, CInt (count_key k rows)) <$> sorted_keys rows)]).
Proof.
  unfold reset_index, size_series. cbn [s_names s_rows].
  rewrite bool_decide_eq_true_2 by apply NoDup_singleton.
  rewrite length_fmap. cbn [imap app compose].
  rewrite <- !list_fmap_compose. reflexivity.
Qed.

Lemma basic_aggregate_eq df x xs :
  getitem df x = Ok xs →
  basic_aggregate df x
  = if negb (String.eqb x "Percentage")
    then Ok (basic_table x (key_rows [xs]))
    else Raise ValueError.
Proof.
  intros Hx. unfold basic_aggregate.
  rewrite !groupby_size_unfold, rmap_getitem_1, Hx. cbn [rbind].
  rewrite reset_index_1. cbn [rbind].
  rewrite apply_values_percent by apply key_rows_nonempty.
  set (rows := key_rows [xs]). set (keys := sorted_keys rows).
  unfold setitem, len. cbn [df_index df_columns].
  rewrite !length_fmap, length_range_index, Nat.eqb_refl.
  cbn [replace_column rbind].
  destruct (String.eqb x "Percentage") eqn:Ex; [done|].
  cbn [String.eqb Ascii.eqb Bool.eqb negb].
  unfold set_columns.
  cbn [df_index df_columns length Nat.eqb fmap list_fmap zip zip_with snd].
  reflexivity.
Qed.

Lemma basic_aggregate_Ok df x agg :
  basic_aggregate df x = Ok agg →
  ∃ xs, getitem df x = Ok xs ∧ agg = basic_table x (key_rows [xs]).
Proof.
  intros H. destruct (getitem df x) as [xs|e] eqn:Hx; last first.
  { unfold basic_aggregate in H.
    rewrite groupby_size_unfold, rmap_getitem_1, Hx in H. discriminate. }
  rewrite (basic_aggregate_eq df x xs Hx) in H.
  destruct (negb _); [|discriminate]. injection H as <-. eauto.
Qed.

Lemma filter_single_head (a : cell) (rows : list (list cell)) :
  Forall (λ r : list cell, ∃ b, r = [b]) rows →
  filter (λ r, r !!! 0 = a) rows = filter (λ r, r = [a]) rows.
Proof.
  induction 1 as [|r rows [b ->] _ IH]; [done|].
  destruct (decide (b = a)) as [->|Hne].
  - rewrite !filter_cons_True by done. by rewrite IH.
  - rewrite !filter_cons_False; [done|congruence|done].
Qed.

(** With one grouping column a key is its own primary category. *)
Lemma count_primary_single xs k :
  k ∈ key_rows [xs] →
  count_primary (k !!! 0) (key_rows [xs]) = count_key k (key_rows [xs]).
Proof.
  intros Hk. unfold count_primary, count_key. do 2 f_equal.
  assert (Forall (λ r : list cell, ∃ a, r = [a]) (key_rows [xs])) as Hall.
  { apply Forall_forall. intros r [_ Hr]%list_elem_of_filter.
    cbn [zip_rows] in Hr. apply list_elem_of_fmap in Hr as (a & -> & _). eauto. }
  destruct (proj1 (Forall_forall _ _) Hall k Hk) as [a ->].
  by apply filter_single_head.
Qed.

Lemma percent_whole c : (0 < c)%Z → percent c c = Qc_of_Z 100.
Proof.
  intros Hc. apply Qc_is_canon. unfold percent.
  rewrite this_div, !this_of_Z, inject_Z_mult.
  assert (¬ (inject_Z c == 0)%Q) as Hnz.
  { change 0%Q with (inject_Z 0). rewrite inject_Z_injective. lia. }
  field. exact Hnz.
Qed.

(** In the basic path every percentage is 100: each count is divided by
    the total of its own group, which is the count itself. *)
Lemma basic_table_percentage x xs :
  lookup_column "Percentage" (df_columns (basic_table x (key_rows [xs])))
  = if String.eqb x "Percentage"
    then Some ((λ k, k !!! 0) <$> sorted_keys (key_rows [xs]))
    else Some ((λ _, CFloat (Qc_of_Z 100)) <$> sorted_keys (key_rows [xs])).
Proof.
  unfold basic_table. cbn [df_columns lookup_column].
  destruct (String.eqb x "Percentage"); [done|].
  cbn [String.eqb Ascii.eqb Bool.eqb]. f_equal.
  rewrite <- list_fmap_compose. apply list_fmap_ext.
  intros _ k Hk%list_elem_of_lookup_2. apply (proj1 (elem_of_sorted_keys _ _)) in Hk.
  cbn [compose]. f_equal. rewrite count_primary_single by done.
  apply percent_whole. by apply count_key_pos.
Qed.

(** ** Sums of percentages *)

Lemma this_percent c t : (this (percent c t) == 100 * inject_Z c / inject_Z t)%Q.
Proof.
  unfold percent. rewrite this_div, !this_of_Z, inject_Z_mult. reflexivity.
Qed.











(** C1.  With no colour column, [barplot]'s aggregate has one row per
    category present, with its row count, but every percentage is 100: each
    count is divided by the total of its own group, not by the number of
    rows of the table.  The percentages add up to 100 times the number of
    categories. *)
Theorem basic_aggregate_percentages df x agg :
  basic_aggregate df x = Ok agg →
  ∃ xs, getitem df x = Ok xs
    ∧ let rows := key_rows [xs] in
      let keys := sorted_keys rows in
      NoDup keys ∧ (∀ k, k ∈ keys ↔ k ∈ rows)
      ∧ df_columns agg
        = [(x, (λ k, k !!! 0) <$> keys);
           ("Count", (λ k, CInt (count_key k rows)) <$> keys);
           ("Percentage", (λ _, CFloat (Qc_of_Z 100)) <$> keys)]
      ∧ sumQc ((λ _, Qc_of_Z 100) <$> keys)
        = Qc_of_Z (100 * Z.of_nat (length keys)).
Proof.
  intros H.
  destruct (basic_aggregate_Ok df x agg H) as (xs & Hx & ->).
  exists xs. split; [done|]. intros rows keys.
  split; [apply NoDup_sorted_keys|]. split; [apply elem_of_sorted_keys|].
  split.
  - rewrite (basic_aggregate_eq df x xs Hx) in H.
    destruct (String.eqb x "Percentage") eqn:Ex; [discriminate|].
    pose proof (basic_table_percentage x xs) as Hp. rewrite Ex in Hp.
    unfold basic_table in *. cbn [df_columns lookup_column] in *.
    rewrite Ex in Hp. cbn [String.eqb Ascii.eqb Bool.eqb] in Hp.
    injection Hp as Hp. fold rows keys in Hp |- *. by rewrite Hp.
  - induction keys as [|k keys IH]; [by apply Qc_is_canon|].
    rewrite fmap_cons. change (sumQc (?q :: ?l)) with (q + sumQc l)%Qc.
    rewrite IH. apply Qc_is_canon. rewrite this_plus, !this_of_Z.
    cbn [length]. rewrite Nat2Z.inj_succ, <- inject_Z_plus. f_equiv. lia.
Qed.

Lemma basic_aggregate_percentages_witness :
  ∃ agg, basic_aggregate ex_scenario "x" = Ok agg
    ∧ df_columns agg
      = [("x", [CInt 1; CInt 2; CInt 3]);
         ("Count", [CInt 3; CInt 2; CInt 1]);
         ("Percentage",
          [CFloat (Qc_of_Z 100); CFloat (Qc_of_Z 100); CFloat (Qc_of_Z 100)])].
Proof.
  destruct (basic_aggregate ex_scenario "x") as [agg|e] eqn:E;
    [|by vm_compute in E].
  exists agg. split; [done|].
  destruct (basic_aggregate_percentages ex_scenario "x" agg E)
    as (xs & Hx & _ & _ & -> & _).
  vm_compute in Hx. injection Hx as <-. by vm_compute.
Defined.






(** * Further properties *)

(** ** control_chart_ADTK: what the series hold *)

Lemma violation_criteria_bands df bands :
  violation_criteria df = Ok bands →
  ∃ v, getitem df "Violation" = Ok v
    ∧ df_viol bands = df_select (out_of_control <$> v) df
    ∧ df_viol_low bands = df_select (in_low <$> v) df
    ∧ df_viol_med bands = df_select (in_med <$> v) df
    ∧ df_viol_high bands = df_select (in_high <$> v) df.
Proof.
  intros H. apply violation_criteria_masks in H as (v & Hv & H0 & Hl & Hm & Hh).
  exists v. split; [done|]. split; [done|]. split; [done|]. split.
  - rewrite Hm. f_equal. apply list_fmap_ext. intros _ c _. apply in_med_mask.
  - rewrite Hh. f_equal. apply list_fmap_ext. intros _ c _. apply in_high_mask.
Qed.

Lemma control_chart_ADTK_series self title value_name w fig w' :
  control_chart_ADTK self title value_name w = (Ok fig, w') →
  ∃ df v values median ucl lcl y_low,
    heap w !! _df self = Some df
    ∧ getitem df "Violation" = Ok v
    ∧ getitem df "Values" = Ok values
    ∧ getitem df "Median" = Ok median
    ∧ getitem df "UCL" = Ok ucl
    ∧ getitem df "LCL" = Ok lcl
    ∧ fig_title fig = Some title
    ∧ series_view <$> fig_data fig
      = [(value_name, df_index df, values, true);
         ("Median", df_index df, median, true);
         ("Control Limits", df_index df, ucl, true);
         ("LCL", df_index df, lcl, false);
         ("Violation", select (out_of_control <$> v) (df_index df),
          select (out_of_control <$> v) values, true);
         ("Low Probability of Violation", select (in_low <$> v) (df_index df),
          y_low, true);
         ("Medium Probability of Violation", select (in_med <$> v) (df_index df),
          select (in_med <$> v) values, true);
         ("High Probability of Violation", select (in_high <$> v) (df_index df),
          select (in_high <$> v) values, true)]
    ∧ y_low = select (out_of_control <$> v) values.
Proof.
  intros H. apply control_chart_ADTK_Ok in H
    as (_ & df & bands & values & median & ucl & lcl & y_viol & y_med & y_high
        & Hdf & Hb & H1 & H2 & H3 & H4 & H5 & H6 & H7 & ->).
  apply violation_criteria_bands in Hb as (v & Hv & E0 & El & Em & Eh).
  rewrite E0 in H5. rewrite Em in H6. rewrite Eh in H7.
  rewrite (getitem_select (out_of_control <$> v) _ _ _ H1) in H5.
  rewrite (getitem_select (in_med <$> v) _ _ _ H1) in H6.
  rewrite (getitem_select (in_high <$> v) _ _ _ H1) in H7.
  injection H5 as <-. injection H6 as <-. injection H7 as <-.
  exists df, v, values, median, ucl, lcl, (select (out_of_control <$> v) values).
  repeat (split; [done|]). split; [|done].
  unfold chart_series, series_view.
  cbn [fig_data fmap list_fmap tr_name tr_x tr_y tr_showlegend].
  by rewrite E0, El, Em, Eh.
Qed.

(** X1.  Whenever [control_chart_ADTK] returns, its figure carries the
    given title and eight series in this order: the values, the median and
    the two control limits over the whole index (the lower limit alone is
    kept out of the legend), then the markers.  The all-violations, medium
    and high marker series hold the timestamps of the rows selected by
    [violation > 0], [0.33 < violation <= 0.67] and [violation > 0.67],
    each with those rows' own values; the low series sits at the timestamps
    of the rows with [0 < violation <= 0.33]. *)
Theorem control_chart_series self title value_name w fig w' :
  control_chart_ADTK self title value_name w = (Ok fig, w') →
  ∃ df v values median ucl lcl y_low,
    heap w !! _df self = Some df
    ∧ getitem df "Violation" = Ok v
    ∧ getitem df "Values" = Ok values
    ∧ getitem df "Median" = Ok median
    ∧ getitem df "UCL" = Ok ucl
    ∧ getitem df "LCL" = Ok lcl
    ∧ fig_title fig = Some title
    ∧ series_view <$> fig_data fig
      = [(value_name, df_index df, values, true);
         ("Median", df_index df, median, true);
         ("Control Limits", df_index df, ucl, true);
         ("LCL", df_index df, lcl, false);
         ("Violation", select (out_of_control <$> v) (df_index df),
          select (out_of_control <$> v) values, true);
         ("Low Probability of Violation", select (in_low <$> v) (df_index df),
          y_low, true);
         ("Medium Probability of Violation", select (in_med <$> v) (df_index df),
          select (in_med <$> v) values, true);
         ("High Probability of Violation", select (in_high <$> v) (df_index df),
          select (in_high <$> v) values, true)].
Proof.
  intros H.
  destruct (control_chart_ADTK_series _ _ _ _ _ _ H)
    as (df & v & values & median & ucl & lcl & y_low & H').
  exists df, v, values, median, ucl, lcl, y_low. tauto.
Qed.

Lemma control_chart_series_witness :
  ∃ fig, (control_chart_ADTK (__init__ 0) "T" "Actuals" (ex_world ex_chart None)).1
         = Ok fig
    ∧ (series_view <$> fig_data fig) !! 7
      = Some ("High Probability of Violation", [CStr "t1"], [CInt 10], true).
Proof.
  destruct (control_chart_ADTK (__init__ 0) "T" "Actuals" (ex_world ex_chart None))
    as [[fig|e] w'] eqn:E; [|by vm_compute in E].
  exists fig. split; [done|].
  destruct (control_chart_series _ _ _ _ _ _ E)
    as (df & v & values & median & ucl & lcl & y_low & Hdf & Hv & H1 & _ & _ & _ & _ & ->).
  vm_compute in Hdf. injection Hdf as <-.
  vm_compute in Hv, H1. injection Hv as <-. injection H1 as <-. reflexivity.
Defined.

(** Selecting by the three band masks splits what the violation mask
    selects. *)
Lemma select_bands_length {A} (v : list cell) (l : list A) :
  length (select (in_low <$> v) l) + length (select (in_med <$> v) l)
  + length (select (in_high <$> v) l)
  = length (select (out_of_control <$> v) l).
Proof.
  revert l. induction v as [|c v IH]; intros [|a l]; try done.
  rewrite !fmap_cons. cbn [select].
  destruct (bands_exclusive c) as (E1 & E2 & E3).
  pose proof (bands_cover c) as E4. specialize (IH l).
  destruct (in_low c), (in_med c), (in_high c), (out_of_control c);
    try discriminate; cbn [length]; lia.
Qed.

(** X2.  Every row with a violation above 0 is in exactly one band: the
    sizes of the low, medium and high bands add up to the size of the
    all-violations set. *)
Theorem violation_bands_sizes df bands :
  violation_criteria df = Ok bands →
  len (df_viol_low bands) + len (df_viol_med bands) + len (df_viol_high bands)
  = len (df_viol bands).
Proof.
  intros H. apply violation_criteria_bands in H as (v & _ & -> & -> & -> & ->).
  unfold len, df_select. cbn [df_index]. apply select_bands_length.
Qed.

Lemma violation_bands_sizes_witness :
  ∃ bands, violation_criteria ex_chart = Ok bands
    ∧ len (df_viol_low bands) + len (df_viol_med bands) + len (df_viol_high bands) = 2.
Proof.
  destruct (violation_criteria ex_chart) as [bands|e] eqn:E;
    [|by vm_compute in E].
  exists bands. split; [done|].
  rewrite (violation_bands_sizes ex_chart bands E).
  vm_compute in E. by injection E as <-.
Defined.

Lemma series_cmp_str op bound (v : list cell) s :
  CStr s ∈ v → rmap (cell_cmp op bound) v = Raise TypeError.
Proof.
  induction v as [|c v IH]; [by intros ?%elem_of_nil|].
  intros [<-|Hs]%elem_of_cons; [done|].
  cbn [rmap]. destruct c; cbn [cell_cmp rbind]; try done; by rewrite IH.
Qed.

(** X3.  A [Violation] column holding a string cannot be compared with 0:
    [control_chart_ADTK] raises [TypeError] and leaves the store as it
    was. *)
Theorem control_chart_string_violation self title value_name w df v s :
  heap w !! _df self = Some df →
  getitem df "Violation" = Ok v →
  CStr s ∈ v →
  control_chart_ADTK self title value_name w = (Raise TypeError, w).
Proof.
  intros Hdf Hv Hs. unfold control_chart_ADTK, bind, load. rewrite Hdf.
  unfold lift at 1, violation_criteria. rewrite Hv. cbn [rbind].
  unfold series_gt. by rewrite (series_cmp_str _ _ _ s Hs).
Qed.

Lemma control_chart_string_violation_witness :
  control_chart_ADTK (__init__ 0) "T" "Actuals" (ex_world ex_chart_text None)
  = (Raise TypeError, ex_world ex_chart_text None).
Proof.
  apply (control_chart_string_violation (__init__ 0) "T" "Actuals"
           (ex_world ex_chart_text None) ex_chart_text
           [CFloat (dec 1 2); CStr "high"] "high").
  - reflexivity.
  - reflexivity.
  - apply list_elem_of_further, list_elem_of_here.
Defined.

Lemma select_none {A} (v : list cell) (p : cell → bool) (l : list A) :
  Forall (λ c, p c = false) v → select (p <$> v) l = [].
Proof.
  intros Hv. revert l. induction Hv as [|c v Hc _ IH]; intros [|a l]; try done.
  rewrite fmap_cons. cbn [select]. rewrite Hc. apply IH.
Qed.

Lemma series_cmp_Ok op bound (v : list cell) :
  Forall not_str v → rmap (cell_cmp op bound) v = Ok (num_cmp op bound <$> v).
Proof.
  induction 1 as [|c v Hc _ IH]; [done|].
  cbn [rmap]. rewrite IH, fmap_cons.
  destruct c; cbn [cell_cmp rbind]; try done. by destruct (Hc s).
Qed.

Lemma Forall_select {A} (P : A → Prop) (mask : list bool) (l : list A) :
  Forall P l → Forall P (select mask l).
Proof.
  intros Hl. revert mask. induction Hl as [|a l Ha _ IH]; intros [|b mask];
    cbn [select]; try constructor.
  destruct b; [constructor|]; auto.
Qed.

Lemma violation_criteria_returns df v :
  getitem df "Violation" = Ok v → Forall not_str v →
  ∃ bands, violation_criteria df = Ok bands.
Proof.
  intros Hv Hns. unfold violation_criteria. rewrite Hv. cbn [rbind].
  unfold series_gt, series_le. rewrite (series_cmp_Ok _ _ v Hns). cbn [rbind].
  rewrite (getitem_select _ _ _ _ Hv). cbn [rbind].
  rewrite !(series_cmp_Ok _ _ (select _ v)) by by apply Forall_select.
  cbn [rbind].
  rewrite (getitem_select _ _ _ _ (getitem_select _ _ _ _ Hv)). cbn [rbind].
  rewrite (series_cmp_Ok _ _ (select _ (select _ v)))
    by by do 2 apply Forall_select.
  cbn [rbind]. eauto.
Qed.

Lemma violation_criteria_no_str df bands v :
  violation_criteria df = Ok bands → getitem df "Violation" = Ok v →
  Forall not_str v.
Proof.
  intros H Hv. apply Forall_forall. intros c Hc s ->.
  unfold violation_criteria in H. rewrite Hv in H. cbn [rbind] in H.
  unfold series_gt in H. by rewrite (series_cmp_str _ _ _ s Hc) in H.
Qed.

Lemma control_chart_ADTK_returns self title value_name w df bands values median
  ucl lcl :
  heap w !! _df self = Some df →
  violation_criteria df = Ok bands →
  getitem df "Values" = Ok values →
  getitem df "Median" = Ok median →
  getitem df "UCL" = Ok ucl →
  getitem df "LCL" = Ok lcl →
  ∃ fig, control_chart_ADTK self title value_name w = (Ok fig, w).
Proof.
  intros Hdf Hb H1 H2 H3 H4.
  unfold control_chart_ADTK, bind, load, lift, ret.
  rewrite Hdf, Hb, H1, H2, H3, H4.
  apply violation_criteria_bands in Hb as (v & Hv & -> & _ & -> & ->).
  rewrite !(getitem_select _ _ _ _ H1). eauto.
Qed.

(** X4.  [control_chart_ADTK] returns a figure exactly when the table has
    the five required columns and no cell of [Violation] is a string;
    missing values and integers are accepted. *)
Theorem control_chart_returns_iff self title value_name w df :
  heap w !! _df self = Some df →
  (∃ fig, control_chart_ADTK self title value_name w = (Ok fig, w))
  ↔ (∀ c, c ∈ required_columns → ∃ col, getitem df c = Ok col)
    ∧ (∀ v, getitem df "Violation" = Ok v → Forall not_str v).
Proof.
  intros Hdf. split.
  - intros [fig H]. apply control_chart_ADTK_Ok in H
      as (_ & df' & bands & ? & ? & ? & ? & ? & ? & ?
          & Hdf' & Hb & H1 & H2 & H3 & H4 & _).
    rewrite Hdf in Hdf'. injection Hdf' as <-. split.
    + destruct (violation_criteria_Ok_column _ _ Hb) as [v Hv].
      intros c Hc. unfold required_columns in Hc. rewrite !elem_of_cons in Hc.
      destruct Hc as [Hc|[Hc|[Hc|[Hc|[Hc|Hc]]]]]; try (subst c; eauto).
      by apply elem_of_nil in Hc.
    + intros v Hv. by eapply violation_criteria_no_str.
  - intros [Hcols Hns].
    destruct (Hcols "Values") as [values H1];
      [apply list_elem_of_here|].
    destruct (Hcols "Median") as [median H2];
      [apply list_elem_of_further, list_elem_of_here|].
    destruct (Hcols "UCL") as [ucl H3];
      [do 2 apply list_elem_of_further; apply list_elem_of_here|].
    destruct (Hcols "LCL") as [lcl H4];
      [do 3 apply list_elem_of_further; apply list_elem_of_here|].
    destruct (Hcols "Violation") as [v Hv];
      [do 4 apply list_elem_of_further; apply list_elem_of_here|].
    destruct (violation_criteria_returns df v Hv (Hns v Hv)) as [bands Hb].
    by eapply control_chart_ADTK_returns.
Qed.

Lemma control_chart_returns_iff_witness :
  ∃ fig, control_chart_ADTK (__init__ 0) "T" "Actuals" (ex_world ex_chart None)
         = (Ok fig, ex_world ex_chart None).
Proof.
  apply (proj2 (control_chart_returns_iff (__init__ 0) "T" "Actuals"
                  (ex_world ex_chart None) ex_chart eq_refl)).
  split.
  - intros c Hc. unfold required_columns in Hc. rewrite !elem_of_cons in Hc.
    destruct Hc as [Hc|[Hc|[Hc|[Hc|[Hc|Hc]]]]]; try (subst c; by eexists).
    by apply elem_of_nil in Hc.
  - intros v Hv. vm_compute in Hv. injection Hv as <-.
    repeat constructor; by intros s.
Defined.

(** X5.  On a table with no violation above 0 (numbers at most 0 and
    missing values only) the chart is built when the other four columns are
    there, and its four marker series are empty. *)
Theorem control_chart_in_control self title value_name w df v values median ucl lcl :
  heap w !! _df self = Some df →
  getitem df "Violation" = Ok v →
  getitem df "Values" = Ok values →
  getitem df "Median" = Ok median →
  getitem df "UCL" = Ok ucl →
  getitem df "LCL" = Ok lcl →
  Forall (λ c, c = CNaN ∨ ∃ q, cell_num c = Some q ∧ (q ≤ 0)%Qc) v →
  ∃ fig, control_chart_ADTK self title value_name w = (Ok fig, w)
    ∧ drop 4 (series_view <$> fig_data fig)
      = [("Violation", [], [], true);
         ("Low Probability of Violation", [], [], true);
         ("Medium Probability of Violation", [], [], true);
         ("High Probability of Violation", [], [], true)].
Proof.
  intros Hdf Hv H1 H2 H3 H4 Hin.
  assert (Forall not_str v) as Hns.
  { eapply Forall_impl; [exact Hin|]. intros c Hc s Hs. subst c.
    destruct Hc as [?|(q & Hq & _)]; discriminate. }
  assert (Forall (λ c, out_of_control c = false) v) as Hooc.
  { eapply Forall_impl; [exact Hin|]. intros c [Hc|(q & Hq & Hle)];
      [by subst c|].
    unfold out_of_control, num_cmp. rewrite Hq. unfold Qc_gtb.
    apply bool_decide_eq_false_2. by apply Qcle_not_lt. }
  assert (∀ p, (∀ c, p c = true → out_of_control c = true) →
               Forall (λ c, p c = false) v) as Hband.
  { intros p Hp. eapply Forall_impl; [exact Hooc|]. intros c Hc.
    cbv beta in Hc. destruct (p c) eqn:E; [|done]. rewrite (Hp c E) in Hc. done. }
  destruct (violation_criteria_returns df v Hv Hns) as [bands Hb].
  destruct (control_chart_ADTK_returns self title value_name w df bands
              values median ucl lcl Hdf Hb H1 H2 H3 H4) as [fig Hfig].
  exists fig. split; [done|].
  destruct (control_chart_ADTK_series _ _ _ _ _ _ Hfig)
    as (df' & v' & values' & ? & ? & ? & y_low & Hdf' & Hv' & H1' & _ & _ & _ & _
        & -> & ->).
  rewrite Hdf in Hdf'. injection Hdf' as <-.
  rewrite Hv in Hv'. injection Hv' as <-. rewrite H1 in H1'. injection H1' as <-.
  cbn [drop].
  rewrite !(select_none v out_of_control) by done.
  rewrite !(select_none v in_low), !(select_none v in_med),
    !(select_none v in_high); [done|..];
    apply Hband; intros c Hc; rewrite <- bands_cover;
    by destruct (in_low c), (in_med c), (in_high c).
Qed.

Lemma control_chart_in_control_witness :
  ∃ fig, control_chart_ADTK (__init__ 0) "T" "Actuals" (ex_world ex_chart_quiet None)
         = (Ok fig, ex_world ex_chart_quiet None)
    ∧ length (fig_data fig) = 8.
Proof.
  destruct (control_chart_in_control (__init__ 0) "T" "Actuals"
              (ex_world ex_chart_quiet None) ex_chart_quiet
              [CInt 0; CNaN] [CInt 10; CInt 20] [CInt 15; CInt 15]
              [CInt 25; CInt 25] [CInt 5; CInt 5]
              eq_refl eq_refl eq_refl eq_refl eq_refl eq_refl)
    as (fig & Hfig & _).
  - apply Forall_cons. split.
    + right. exists (Qc_of_Z 0). split; [done|]. by vm_compute.
    + apply Forall_cons. split; [by left|constructor].
  - exists fig. split; [done|].
    apply control_chart_ADTK_Ok in Hfig as (_ & ? & ? & ? & ? & ? & ? & ? & ? & ?
                                            & _ & _ & _ & _ & _ & _ & _ & _ & _ & ->).
    reflexivity.
Defined.

(** ** barplot: outcomes of the aggregation *)

Lemma getitem_outcome df name :
  (∃ col, getitem df name = Ok col ∧ has_column df name)
  ∨ (getitem df name = Raise (KeyError name) ∧ ¬ has_column df name).
Proof.
  unfold getitem, has_column.
  destruct (lookup_column name (df_columns df)) as [col|].
  - left. eauto.
  - right. split; [done|]. by intros [? ?].
Qed.

Lemma stacked_aggregate_missing_x df x color :
  getitem df x = Raise (KeyError x) →
  stacked_aggregate df x color = Raise (KeyError x).
Proof.
  intros H. unfold stacked_aggregate.
  by rewrite groupby_size_unfold, rmap_getitem_2, H.
Qed.

Lemma stacked_aggregate_missing_color df x color xs :
  getitem df x = Ok xs → getitem df color = Raise (KeyError color) →
  stacked_aggregate df x color = Raise (KeyError color).
Proof.
  intros Hx H. unfold stacked_aggregate.
  by rewrite groupby_size_unfold, rmap_getitem_2, Hx, H.
Qed.

(** X6.  The stacked aggregate is built exactly when both grouping columns
    exist, differ, and neither is called [Percentage].  A missing column
    raises [KeyError] with its name, [x] checked first; equal names, or a
    grouping column called [Percentage], raise [ValueError]. *)
Theorem stacked_aggregate_outcome df x color :
  match stacked_aggregate df x color with
  | Ok _ =>
      has_column df x ∧ has_column df color
      ∧ x ≠ color ∧ x ≠ "Percentage" ∧ color ≠ "Percentage"
  | Raise (KeyError k) =>
      (k = x ∧ ¬ has_column df x)
      ∨ (k = color ∧ has_column df x ∧ ¬ has_column df color)
  | Raise ValueError =>
      has_column df x ∧ has_column df color
      ∧ (x = color ∨ x = "Percentage" ∨ color = "Percentage")
  | Raise _ => False
  end.
Proof.
  destruct (getitem_outcome df x) as [(xs & Hx & Hhx)|[Hx Hhx]]; last first.
  { rewrite (stacked_aggregate_missing_x _ _ _ Hx). by left. }
  destruct (getitem_outcome df color) as [(cs & Hc & Hhc)|[Hc Hhc]]; last first.
  { rewrite (stacked_aggregate_missing_color _ _ _ _ Hx Hc). by right. }
  rewrite (stacked_aggregate_eq df x color xs cs Hx Hc).
  case_bool_decide as Hne; cbn [andb].
  - destruct (String.eqb x "Percentage") eqn:Ex; cbn [negb andb].
    { apply String.eqb_eq in Ex. tauto. }
    destruct (String.eqb color "Percentage") eqn:Ec; cbn [negb].
    { apply String.eqb_eq in Ec. tauto. }
    apply String.eqb_neq in Ex, Ec. tauto.
  - assert (x = color) by (by destruct (decide (x = color))). tauto.
Qed.

Lemma basic_aggregate_missing_x df x :
  getitem df x = Raise (KeyError x) → basic_aggregate df x = Raise (KeyError x).
Proof.
  intros H. unfold basic_aggregate.
  by rewrite groupby_size_unfold, rmap_getitem_1, H.
Qed.

(** X7.  The basic aggregate is built exactly when the grouping column
    exists and is not called [Percentage]; a missing column raises
    [KeyError] with its name, a column called [Percentage] raises
    [ValueError]. *)
Theorem basic_aggregate_outcome df x :
  match basic_aggregate df x with
  | Ok _ => has_column df x ∧ x ≠ "Percentage"
  | Raise (KeyError k) => k = x ∧ ¬ has_column df x
  | Raise ValueError => has_column df x ∧ x = "Percentage"
  | Raise _ => False
  end.
Proof.
  destruct (getitem_outcome df x) as [(xs & Hx & Hhx)|[Hx Hhx]]; last first.
  { by rewrite (basic_aggregate_missing_x _ _ Hx). }
  rewrite (basic_aggregate_eq df x xs Hx).
  destruct (String.eqb x "Percentage") eqn:Ex; cbn [negb].
  - apply String.eqb_eq in Ex. tauto.
  - apply String.eqb_neq in Ex. tauto.
Qed.

(** X8.  When the aggregation raises, [barplot] raises the same exception
    and the store is as it was: nothing has been allocated yet. *)
Theorem barplot_aggregate_error self x color opacity template has_title barmode
  is_horizontal title is_percent show_num w df e :
  heap w !! _df self = Some df →
  match color with
  | Some c => if truthy color then stacked_aggregate df x c else basic_aggregate df x
  | None => basic_aggregate df x
  end = Raise e →
  barplot self x color opacity template has_title barmode is_horizontal title
    is_percent show_num w = (Raise e, w).
Proof.
  intros Hdf H. unfold barplot.
  destruct color as [c|]; [destruct (truthy (Some c))|];
    unfold barplot_stacked, barplot_basic, bind, load, lift;
    by rewrite Hdf, H.
Qed.

Lemma barplot_aggregate_error_witness :
  barplot (__init__ 0) "x" (Some "colour") 1%Qc "ggplot2" true "stack" false None
    false false (ex_world ex_scenario None)
  = (Raise (KeyError "colour"), ex_world ex_scenario None).
Proof.
  by apply (barplot_aggregate_error (__init__ 0) "x" (Some "colour") 1%Qc
              "ggplot2" true "stack" false None false false
              (ex_world ex_scenario None) ex_scenario (KeyError "colour")).
Defined.

(** ** barplot: counts *)

Lemma sum_count_key_all (ks rows : list (list cell)) :
  NoDup ks → (∀ r, r ∈ rows → r ∈ ks) →
  sumZ ((λ k, count_key k rows) <$> ks) = Z.of_nat (length rows).
Proof.
  intros Hnd. unfold count_key.
  induction rows as [|r rows IH]; intros Hin.
  - clear Hin Hnd. induction ks as [|? ? IH']; [done|].
    rewrite fmap_cons, sumZ_cons, IH'. done.
  - rewrite (list_fmap_ext _
      (λ k, (if decide (k = r) then 1 else 0)
            + Z.of_nat (length (filter (λ r0, r0 = k) rows)))%Z); last first.
    { intros _ k _. rewrite filter_cons.
      destruct (decide (r = k)) as [->|Hne].
      - rewrite decide_True by done. cbn [length]. lia.
      - rewrite decide_False by (intros ->; done). lia. }
    rewrite sumZ_fmap_add, IH by (intros r' Hr'; apply Hin; by right).
    pose proof (sumZ_indicator (λ _ : list cell, True) r ks Hnd) as Hi.
    rewrite (filter_all (λ _ : list cell, True)) in Hi
      by (by apply Forall_forall).
    rewrite Hi by (apply Hin; by left).
    rewrite decide_True by done. cbn [length]. lia.
Qed.

Lemma count_column_pos (rows : list (list cell)) :
  Forall (λ n, 0 < n)%Z ((λ k, count_key k rows) <$> sorted_keys rows).
Proof.
  apply Forall_fmap, Forall_forall. intros k Hk.
  apply count_key_pos. by apply (proj1 (elem_of_sorted_keys _ _)).
Qed.

(** X9.  In both aggregates every count is at least 1 (a combination that
    does not occur gets no row), and the counts add up to the number of
    rows of the table that have no missing value in the grouping
    column(s). *)
Theorem aggregate_counts :
  (∀ df x color agg,
     stacked_aggregate df x color = Ok agg →
     ∃ xs cs counts,
       getitem df x = Ok xs ∧ getitem df color = Ok cs
       ∧ df_columns agg !! 2 = Some ("Count", CInt <$> counts)
       ∧ Forall (λ n, 0 < n)%Z counts
       ∧ sumZ counts = Z.of_nat (length (key_rows [xs; cs])))
  ∧ (∀ df x agg,
     basic_aggregate df x = Ok agg →
     ∃ xs counts,
       getitem df x = Ok xs
       ∧ df_columns agg !! 1 = Some ("Count", CInt <$> counts)
       ∧ Forall (λ n, 0 < n)%Z counts
       ∧ sumZ counts = Z.of_nat (length (key_rows [xs]))).
Proof.
  split.
  - intros df x color agg H.
    destruct (stacked_aggregate_Ok df x color agg H) as (xs & cs & Hx & Hc & ->).
    exists xs, cs, ((λ k, count_key k (key_rows [xs; cs])) <$> sorted_keys (key_rows [xs; cs])).
    split; [done|]. split; [done|]. split.
    { unfold stacked_table. cbn [df_columns lookup list_lookup].
      by rewrite <- list_fmap_compose. }
    split; [apply count_column_pos|].
    apply sum_count_key_all; [apply NoDup_sorted_keys|].
    intros r Hr. by apply elem_of_sorted_keys.
  - intros df x agg H.
    destruct (basic_aggregate_Ok df x agg H) as (xs & Hx & ->).
    exists xs, ((λ k, count_key k (key_rows [xs])) <$> sorted_keys (key_rows [xs])).
    split; [done|]. split.
    { unfold basic_table. cbn [df_columns lookup list_lookup].
      by rewrite <- list_fmap_compose. }
    split; [apply count_column_pos|].
    apply sum_count_key_all; [apply NoDup_sorted_keys|].
    intros r Hr. by apply elem_of_sorted_keys.
Qed.

Lemma aggregate_counts_witness :
  ∃ agg counts, stacked_aggregate ex_scenario "x" "c" = Ok agg
    ∧ df_columns agg !! 2 = Some ("Count", CInt <$> counts)
    ∧ sumZ counts = 6%Z.
Proof.
  destruct (stacked_aggregate ex_scenario "x" "c") as [agg|e] eqn:E;
    [|by vm_compute in E].
  destruct (proj1 aggregate_counts ex_scenario "x" "c" agg E)
    as (xs & cs & counts & Hx & Hc & Hcol & _ & Hsum).
  vm_compute in Hx, Hc. injection Hx as <-. injection Hc as <-.
  exists agg, counts. split; [done|]. split; [done|].
  rewrite Hsum. by vm_compute.
Defined.

(** ** barplot: percentages stay between 0 and 100 *)

Lemma length_filter_impl {A} (P Q : A → Prop) `{∀ a, Decision (P a)}
  `{∀ a, Decision (Q a)} (l : list A) :
  (∀ a, P a → Q a) → length (filter P l) ≤ length (filter Q l).
Proof.
  intros HPQ. induction l as [|a l IH]; [done|].
  rewrite !filter_cons. destruct (decide (P a)) as [HP|HP].
  - rewrite decide_True by auto. cbn [length]. lia.
  - destruct (decide (Q a)); cbn [length]; lia.
Qed.

Lemma count_key_le_primary k rows :
  (count_key k rows ≤ count_primary (k !!! 0%nat) rows)%Z.
Proof.
  unfold count_key, count_primary. apply Nat2Z.inj_le.
  apply length_filter_impl. by intros r ->.
Qed.

Lemma rint_bounds (a b : Z) (q : Qc) :
  (inject_Z a <= this q <= inject_Z b)%Q → (a ≤ rint q ≤ b)%Z.
Proof.
  intros [Ha Hb]. destruct (rint_spec q) as [[H1 H2] _]. split.
  - destruct (Z_le_gt_dec a (rint q)) as [|Hgt]; [done|]. exfalso.
    assert (rint q + 1 ≤ a)%Z as Hle by lia.
    rewrite Zle_Qle in Hle. rewrite inject_Z_plus in Hle.
    change (inject_Z 1) with 1%Q in Hle. lra.
  - destruct (Z_le_gt_dec (rint q) b) as [|Hgt]; [done|]. exfalso.
    assert (b + 1 ≤ rint q)%Z as Hle by lia.
    rewrite Zle_Qle in Hle. rewrite inject_Z_plus in Hle.
    change (inject_Z 1) with 1%Q in Hle. lra.
Qed.

Lemma percent_bounds c t :
  (0 < c)%Z → (c ≤ t)%Z → (0 <= this (percent c t) <= 100)%Q.
Proof.
  intros Hc Hct. rewrite this_percent.
  assert (0 < inject_Z t)%Q as Ht.
  { change 0%Q with (inject_Z 0). rewrite <- Zlt_Qlt. lia. }
  assert (0 < inject_Z c)%Q as Hc'.
  { change 0%Q with (inject_Z 0). rewrite <- Zlt_Qlt. lia. }
  rewrite Zle_Qle in Hct. split.
  - apply Qle_shift_div_l; [done|]. lra.
  - apply Qle_shift_div_r; [done|]. lra.
Qed.

Lemma percentage_bounds rows k :
  k ∈ rows → (0 <= this (percentage rows k) <= 100)%Q.
Proof.
  intros Hk. unfold percentage. rewrite this_np_round_2.
  pose proof (percent_bounds (count_key k rows) (count_primary (k !!! 0) rows)
                (count_key_pos k rows Hk) (count_key_le_primary k rows)) as [H0 H1].
  destruct (rint_bounds 0 10000
              (percent (count_key k rows) (count_primary (k !!! 0) rows) * pow10 2))
    as [Hlo Hhi].
  { rewrite this_mult. change (this (pow10 2)) with 100%Q.
    change (inject_Z 0) with 0%Q. change (inject_Z 10000) with 10000%Q. lra. }
  rewrite Zle_Qle in Hlo, Hhi.
  change (inject_Z 0) with 0%Q in Hlo. change (inject_Z 10000) with 10000%Q in Hhi.
  unfold Qdiv. change (/ 100)%Q with (1#100)%Q. lra.
Qed.

(** X10.  Every percentage of the stacked aggregate lies between 0 and
    100. *)
Theorem stacked_percentages_bounded df x color agg :
  stacked_aggregate df x color = Ok agg →
  ∃ pcts, df_columns agg !! 3 = Some ("Percentage", CFloat <$> pcts)
    ∧ Forall (λ p, 0 <= this p <= 100)%Q pcts.
Proof.
  intros H.
  destruct (stacked_aggregate_Ok df x color agg H) as (xs & cs & Hx & Hc & ->).
  eexists. split; [reflexivity|].
  apply Forall_fmap, Forall_forall. intros k Hk.
  apply percentage_bounds. by apply (proj1 (elem_of_sorted_keys _ _)).
Qed.

Lemma stacked_percentages_bounded_witness :
  ∃ agg pcts, stacked_aggregate ex_one_in_800 "x" "c" = Ok agg
    ∧ df_columns agg !! 3 = Some ("Percentage", CFloat <$> pcts)
    ∧ Forall (λ p, 0 <= this p <= 100)%Q pcts.
Proof.
  destruct (stacked_aggregate ex_one_in_800 "x" "c") as [agg|e] eqn:E;
    [|by vm_compute in E].
  destruct (stacked_percentages_bounded ex_one_in_800 "x" "c" agg E)
    as (pcts & H1 & H2).
  exists agg, pcts. split; [reflexivity|]. split; assumption.
Defined.

(** ** barplot: the rows come in key order *)

Lemma StronglySorted_strict {A} `{Lexico A} `{!StrictOrder (@lexico A _)}
  `{!TrichotomyT (@lexico A _)} (l : list A) :
  StronglySorted lex_le l → NoDup l → StronglySorted lexico l.
Proof.
  induction 1 as [|a l Hs IH Ha]; intros Hnd; [constructor|].
  apply NoDup_cons in Hnd as [Hna Hnd]. constructor; [by apply IH|].
  apply Forall_forall. intros b Hb.
  pose proof (proj1 (Forall_forall _ _) Ha b Hb) as Hab. unfold lex_le in Hab.
  destruct (trichotomy lexico a b) as [?|[->|?]]; done.
Qed.

Lemma zip_rows_2_length xs cs :
  Forall (λ r : list cell, length r = 2) (zip_rows [xs; cs]).
Proof.
  cbn [zip_rows]. revert cs. induction xs as [|a xs IH]; intros [|c cs];
    cbn [fmap list_fmap zip_with]; constructor; [done|apply IH].
Qed.

Lemma lexico_ascending (a b : cell) : lexico a b → ascending a b.
Proof. by destruct a, b. Qed.

Lemma StronglySorted_lookup {A} (R : relation A) (l : list A) i j x y :
  StronglySorted R l → i < j → l !! i = Some x → l !! j = Some y → R x y.
Proof.
  intros Hs. revert i j. induction Hs as [|a l Hs IH Ha]; intros i j Hij Hi Hj.
  { by rewrite lookup_nil in Hi. }
  destruct j as [|j]; [lia|]. rewrite lookup_cons in Hj.
  destruct i as [|i].
  - injection Hi as <-.
    apply (proj1 (Forall_forall _ _) Ha). by eapply list_elem_of_lookup_2.
  - rewrite lookup_cons in Hi. apply (IH i j); [lia|done|done].
Qed.

(** X11.  The rows of the stacked aggregate come in increasing key order:
    of two rows, the earlier one has the smaller primary key, or the same
    primary key and the smaller secondary key (integers and floats by
    value, strings by character code).  So no pair of keys has two rows, and
    the rows of one primary category follow each other. *)
Theorem stacked_aggregate_sorted df x color agg :
  stacked_aggregate df x color = Ok agg →
  ∃ xs cs : list cell,
    df_columns agg !! 0 = Some (x, xs)
    ∧ df_columns agg !! 1 = Some (color, cs)
    ∧ length xs = length cs
    ∧ ∀ i j a c b d,
        i < j →
        xs !! i = Some a → cs !! i = Some c →
        xs !! j = Some b → cs !! j = Some d →
        ascending a b ∨ (a = b ∧ ascending c d).
Proof.
  intros H.
  destruct (stacked_aggregate_Ok df x color agg H) as (xs & cs & Hx & Hc & ->).
  set (keys := sorted_keys (key_rows [xs; cs])).
  exists ((λ k : list cell, k !!! 0) <$> keys), ((λ k : list cell, k !!! 1) <$> keys).
  split; [reflexivity|]. split; [reflexivity|].
  split; [by rewrite !length_fmap|].
  assert (Forall (λ k : list cell, length k = 2) keys) as Hlen.
  { apply Forall_forall. intros k Hk.
    apply (proj1 (elem_of_sorted_keys _ _)) in Hk.
    apply list_elem_of_filter in Hk as [_ Hk].
    exact (proj1 (Forall_forall _ _) (zip_rows_2_length xs cs) k Hk). }
  assert (StronglySorted lexico keys) as Hs.
  { apply StronglySorted_strict;
      [apply StronglySorted_sorted_keys | apply NoDup_sorted_keys]. }
  intros i j a c b d Hij Ha Hc' Hb Hd.
  rewrite list_lookup_fmap in Ha, Hc', Hb, Hd.
  destruct (keys !! i) as [k|] eqn:Hi; [|done].
  destruct (keys !! j) as [k'|] eqn:Hj; [|done].
  pose proof (StronglySorted_lookup _ _ _ _ _ _ Hs Hij Hi Hj) as Hlt.
  pose proof (proj1 (Forall_forall _ _) Hlen k
                (list_elem_of_lookup_2 _ _ _ Hi)) as Hk.
  pose proof (proj1 (Forall_forall _ _) Hlen k'
                (list_elem_of_lookup_2 _ _ _ Hj)) as Hk'.
  destruct k as [|a0 [|c0 [|]]]; try done.
  destruct k' as [|b0 [|d0 [|]]]; try done.
  cbn in Ha, Hc', Hb, Hd.
  injection Ha as <-. injection Hc' as <-. injection Hb as <-. injection Hd as <-.
  destruct Hlt as [Hlt|[Heq Hlt]]; cbn in *.
  - left. by apply lexico_ascending.
  - right. split; [done|]. destruct Hlt as [Hlt|[_ []]].
    by apply lexico_ascending.
Qed.

Lemma stacked_aggregate_sorted_witness :
  ∃ agg, stacked_aggregate ex_scenario "x" "c" = Ok agg
    ∧ ∃ xs cs : list cell,
        df_columns agg !! 0 = Some ("x", xs)
        ∧ df_columns agg !! 1 = Some ("c", cs)
        ∧ length xs = length cs
        ∧ ∀ i j a c b d,
            i < j →
            xs !! i = Some a → cs !! i = Some c →
            xs !! j = Some b → cs !! j = Some d →
            ascending a b ∨ (a = b ∧ ascending c d).
Proof.
  destruct (stacked_aggregate ex_scenario "x" "c") as [agg|e] eqn:E;
    [|by vm_compute in E].
  exists agg. split; [reflexivity|].
  exact (stacked_aggregate_sorted ex_scenario "x" "c" agg E).
Defined.

(** ** barplot: rows with a missing key do not count *)

Lemma zip_with_nil_r {A B C} (f : A → B → C) (l : list A) : zip_with f l [] = [].
Proof. by destruct l. Qed.

Lemma select_zip_with {A B C} (f : A → B → C) (m : list bool) :
  ∀ (a : list A) (b : list B),
    select m (zip_with f a b) = zip_with f (select m a) (select m b).
Proof.
  induction m as [|b0 m IH]; intros a b; [by destruct a, b|].
  destruct a as [|x a], b as [|y b]; cbn [select zip_with];
    [done|done|by rewrite zip_with_nil_r|].
  destruct b0; cbn [zip_with]; by rewrite IH.
Qed.

Lemma select_fmap {A B} (f : A → B) (m : list bool) (l : list A) :
  select m (f <$> l) = f <$> select m l.
Proof.
  revert l. induction m as [|b0 m IH]; intros [|x l]; try done.
  rewrite fmap_cons. cbn [select]. destruct b0; by rewrite ?fmap_cons, IH.
Qed.

Lemma select_own_mask {A} (P : A → Prop) `{∀ a, Decision (P a)} (l : list A) :
  select ((λ a, bool_decide (P a)) <$> l) l = filter P l.
Proof.
  induction l as [|a l IH]; [done|].
  rewrite fmap_cons, filter_cons. cbn [select].
  destruct (decide (P a)).
  - rewrite bool_decide_eq_true_2 by done. by rewrite IH.
  - rewrite bool_decide_eq_false_2 by done. by rewrite IH.
Qed.

Lemma filter_idemp {A} (P : A → Prop) `{∀ a, Decision (P a)} (l : list A) :
  filter P (filter P l) = filter P l.
Proof. rewrite list_filter_filter. apply list_filter_iff. tauto. Qed.

Lemma key_rows_select_2 xs cs :
  key_rows [select (complete_rows [xs; cs]) xs; select (complete_rows [xs; cs]) cs]
  = key_rows [xs; cs].
Proof.
  unfold key_rows, complete_rows. cbn [zip_rows].
  rewrite <- select_fmap, <- select_zip_with, select_own_mask.
  apply filter_idemp.
Qed.

Lemma key_rows_select_1 xs :
  key_rows [select (complete_rows [xs]) xs] = key_rows [xs].
Proof.
  unfold key_rows, complete_rows. cbn [zip_rows].
  rewrite <- select_fmap, select_own_mask. apply filter_idemp.
Qed.

(** X12.  Rows with a missing value in a grouping column play no part:
    taking them out of the table beforehand gives the same aggregate, in
    both paths. *)
Theorem aggregate_ignores_missing df x :
  (∀ color xs cs,
     getitem df x = Ok xs → getitem df color = Ok cs →
     stacked_aggregate (df_select (complete_rows [xs; cs]) df) x color
     = stacked_aggregate df x color)
  ∧ (∀ xs,
     getitem df x = Ok xs →
     basic_aggregate (df_select (complete_rows [xs]) df) x
     = basic_aggregate df x).
Proof.
  split.
  - intros color xs cs Hx Hc.
    rewrite (stacked_aggregate_eq df x color xs cs Hx Hc).
    rewrite (stacked_aggregate_eq _ x color _ _
               (getitem_select _ _ _ _ Hx) (getitem_select _ _ _ _ Hc)).
    by rewrite key_rows_select_2.
  - intros xs Hx.
    rewrite (basic_aggregate_eq df x xs Hx).
    rewrite (basic_aggregate_eq _ x _ (getitem_select _ _ _ _ Hx)).
    by rewrite key_rows_select_1.
Qed.

Lemma aggregate_ignores_missing_witness :
  stacked_aggregate ex_missing "x" "c"
  = stacked_aggregate
      (mkDataFrame [CInt 0; CInt 3]
         [("x", [CInt 1; CInt 2]); ("c", [CStr "A"; CStr "B"])]) "x" "c".
Proof.
  symmetry.
  exact (proj1 (aggregate_ignores_missing ex_missing "x") "c"
           [CInt 1; CInt 1; CNaN; CInt 2] [CStr "A"; CNaN; CStr "B"; CStr "B"]
           eq_refl eq_refl).
Defined.

(** ** Orientation *)

Lemma histogram_horizontal self x y color facet_col facet_row bins opacity
  marginal template has_title title w :
  histogram self x y true color facet_col facet_row bins opacity marginal
    template has_title title w
  = (result_map swap_xy
       (histogram self x y false color facet_col facet_row bins opacity marginal
          template has_title title w).1,
     (histogram self x y false color facet_col facet_row bins opacity marginal
        template has_title title w).2).
Proof.
  unfold histogram, bind.
  destruct (clean_varname (_df self) x w) as [[p|e] w1]; [|done].
  destruct (clean_optional p.2 color w1) as [[p1|e] w2]; [|done].
  destruct (clean_optional p1.2 y w2) as [[p2|e] w3]; [|done].
  destruct (clean_optional p2.2 facet_col w3) as [[p3|e] w4]; [|done].
  destruct (clean_optional p3.2 facet_row w4) as [[p4|e] w5]; [|done].
  destruct (load p4.2 w5) as [[d|e] w6]; [|done].
  reflexivity.
Qed.

Lemma barplot_horizontal self x color opacity template has_title barmode title
  is_percent show_num w :
  barplot self x color opacity template has_title barmode true title
    is_percent show_num w
  = (result_map swap_xy
       (barplot self x color opacity template has_title barmode false title
          is_percent show_num w).1,
     (barplot self x color opacity template has_title barmode false title
        is_percent show_num w).2).
Proof.
  assert (∀ c,
    barplot_stacked self x c opacity template has_title barmode true title
      is_percent show_num w
    = (result_map swap_xy
         (barplot_stacked self x c opacity template has_title barmode false title
            is_percent show_num w).1,
       (barplot_stacked self x c opacity template has_title barmode false title
          is_percent show_num w).2)) as Hstacked.
  { intros c. unfold barplot_stacked, bind.
    destruct (load (_df self) w) as [[df|e] w1]; [|done].
    destruct (lift (stacked_aggregate df x c) w1) as [[agg|e] w2]; [|done].
    destruct (alloc agg w2) as [[l|e] w3]; [|done].
    destruct (clean_varname l x w3) as [[p|e] w4]; [|done].
    destruct (clean_varname p.2 c w4) as [[p1|e] w5]; [|done].
    destruct (load p1.2 w5) as [[d|e] w6]; [|done].
    destruct is_percent, show_num; unfold bind, lift, ret;
      try destruct (getitem d _); reflexivity. }
  assert (
    barplot_basic self x template has_title true title w
    = (result_map swap_xy (barplot_basic self x template has_title false title w).1,
       (barplot_basic self x template has_title false title w).2)) as Hbasic.
  { unfold barplot_basic, bind.
    destruct (load (_df self) w) as [[df|e] w1]; [|done].
    destruct (lift (basic_aggregate df x) w1) as [[agg|e] w2]; [|done].
    destruct (alloc agg w2) as [[l|e] w3]; [|done].
    destruct (clean_varname l x w3) as [[p|e] w4]; [|done].
    destruct (load p.2 w4) as [[d|e] w5]; [|done].
    reflexivity. }
  unfold barplot. destruct color as [c|]; [destruct (truthy (Some c))|]; auto.
Qed.

(** X13.  [is_horizontal] only exchanges the [x] and [y] keywords: a
    horizontal [histogram] or [barplot] raises what the vertical one
    raises, leaves the same store, and returns the vertical figure with
    the two keywords exchanged. *)
Theorem horizontal_swaps_axes self w :
  (∀ x y color facet_col facet_row bins opacity marginal template has_title title,
     histogram self x y true color facet_col facet_row bins opacity marginal
       template has_title title w
     = (result_map swap_xy
          (histogram self x y false color facet_col facet_row bins opacity
             marginal template has_title title w).1,
        (histogram self x y false color facet_col facet_row bins opacity
           marginal template has_title title w).2))
  ∧ (∀ x color opacity template has_title barmode title is_percent show_num,
     barplot self x color opacity template has_title barmode true title
       is_percent show_num w
     = (result_map swap_xy
          (barplot self x color opacity template has_title barmode false title
             is_percent show_num w).1,
        (barplot self x color opacity template has_title barmode false title
           is_percent show_num w).2)).
Proof.
  split; intros; [apply histogram_horizontal | apply barplot_horizontal].
Qed.

(** ** What the plotting call is given *)

Lemma frame_lift_eq {A} n (r : result A) : frame n (lift r) (λ a, r = Ok a).
Proof. intros w r' w' Hn [= <- <-]. by repeat split. Qed.

Ltac plot_ret :=
  apply frame_ret; unfold fig_title, category_axis, value_axis;
  cbn [fig_kwargs fig_frame kwarg String.eqb Ascii.eqb Bool.eqb app];
  repeat match goal with
    | |- ∃ _, _ => eexists
    | |- _ ∧ _ => split
    | |- PStr _ = PStr _ => reflexivity
    | |- PNone = PNone => reflexivity
    | |- PFloat _ = PFloat _ => reflexivity
    | |- Some _ = Some _ => reflexivity
    | |- PSeries _ = PSeries _ => reflexivity
    | |- getitem _ _ = Ok _ => eassumption
    | |- match of_optstr ?t with _ => _ end = _ => destruct t; reflexivity
    end.

Ltac plot_step :=
  match goal with
  | |- frame _ (ret _) _ => plot_ret
  | |- frame _ (bind (lift ?r) _) _ =>
      eapply frame_bind; [apply frame_lift_eq|]; intros ? ?; cbv beta in *
  | |- _ => frame_step
  end.

Lemma histogram_plot n self x y is_horizontal color facet_col facet_row bins
  opacity marginal template has_title title :
  frame n (histogram self x y is_horizontal color facet_col facet_row bins
             opacity marginal template has_title title)
    (λ fig, ∃ c, kwarg (category_axis is_horizontal) (fig_kwargs fig) = PStr c
               ∧ fig_title fig
                 = default_title has_title title ("Histogram of " +:+ c)).
Proof. unfold histogram. repeat plot_step. Qed.

Lemma linechart_plot n self x y color template has_title title :
  frame n (linechart self x y color template has_title title)
    (λ fig, ∃ c, kwarg "y" (fig_kwargs fig) = PStr c
               ∧ fig_title fig
                 = default_title has_title title ("Time Series of " +:+ c)).
Proof. unfold linechart. repeat plot_step. Qed.

Lemma scatterplot_plot n self x y color jitter jitter_sd marg_x marg_y
  trendline opacity template has_title title :
  frame n (scatterplot self x y color jitter jitter_sd marg_x marg_y
             trendline opacity template has_title title)
    (λ fig, ∃ c d, kwarg "x" (fig_kwargs fig) = PStr c
                 ∧ kwarg "y" (fig_kwargs fig) = PStr d
                 ∧ fig_title fig
                   = default_title has_title title
                       ("Scatter Plot of " +:+ c +:+ " and " +:+ d)).
Proof.
  unfold scatterplot. do 2 plot_step.
  eapply frame_bind with (P := λ _, True).
  { destruct jitter; repeat frame_step. }
  intros _ _. repeat plot_step.
Qed.

Lemma barplot_basic_plot n self x template has_title is_horizontal title :
  frame n (barplot_basic self x template has_title is_horizontal title)
    (λ fig, ∃ c, kwarg (category_axis is_horizontal) (fig_kwargs fig) = PStr c
               ∧ kwarg (value_axis is_horizontal) (fig_kwargs fig) = PStr "Count"
               ∧ kwarg "text" (fig_kwargs fig) = PNone
               ∧ kwarg "color" (fig_kwargs fig) = PNone
               ∧ kwarg "barmode" (fig_kwargs fig) = PNone
               ∧ kwarg "opacity" (fig_kwargs fig) = PNone
               ∧ fig_title fig
                 = default_title has_title title ("Bar plot of " +:+ c)).
Proof. unfold barplot_basic. repeat plot_step. Qed.

Lemma barplot_stacked_plot n self x color opacity template has_title barmode
  is_horizontal title is_percent show_num :
  frame n (barplot_stacked self x color opacity template has_title barmode
             is_horizontal title is_percent show_num)
    (λ fig, ∃ c k d,
        fig_frame fig = Some d
        ∧ kwarg (category_axis is_horizontal) (fig_kwargs fig) = PStr c
        ∧ kwarg "color" (fig_kwargs fig) = PStr k
        ∧ kwarg (value_axis is_horizontal) (fig_kwargs fig)
          = PStr (if is_percent then "Percentage" else "Count")
        ∧ (if show_num
           then ∃ col, getitem d (if is_percent then "Percentage" else "Count")
                       = Ok col
                     ∧ kwarg "text" (fig_kwargs fig) = PSeries col
           else kwarg "text" (fig_kwargs fig) = PNone)
        ∧ kwarg "barmode" (fig_kwargs fig) = PStr barmode
        ∧ kwarg "opacity" (fig_kwargs fig) = PFloat opacity
        ∧ fig_title fig
          = if has_title
            then default_title true title
                   ("Bar Plot of " +:+ c +:+ " and " +:+ k)
            else None).
Proof.
  unfold barplot_stacked, default_title. do 6 plot_step.
  destruct is_horizontal, is_percent, show_num; repeat plot_step.
Qed.

(** X14.  When titles are enabled and the caller passes a non-empty title,
    every chart builder that returns carries exactly that title. *)
Theorem explicit_title_carried self w t :
  t ≠ "" →
  (∀ x y is_horizontal color facet_col facet_row bins opacity marginal
     template fig w',
      histogram self x y is_horizontal color facet_col facet_row bins opacity
        marginal template true (Some t) w = (Ok fig, w') →
      fig_title fig = Some t)
  ∧ (∀ x color opacity template barmode is_horizontal is_percent show_num
       fig w',
      barplot self x color opacity template true barmode is_horizontal
        (Some t) is_percent show_num w = (Ok fig, w') →
      fig_title fig = Some t)
  ∧ (∀ x y color jitter jitter_sd marg_x marg_y trendline opacity template
       fig w',
      scatterplot self x y color jitter jitter_sd marg_x marg_y trendline
        opacity template true (Some t) w = (Ok fig, w') →
      fig_title fig = Some t)
  ∧ (∀ x y color template fig w',
      linechart self x y color template true (Some t) w = (Ok fig, w') →
      fig_title fig = Some t).
Proof.
  intros Ht. repeat split.
  - intros * E. apply (frame_post _ _ _ _ _ (histogram_plot 0 _ _ _ _ _ _ _ _ _ _ _ _ _)) in E.
    destruct E as (c & _ & ->). by apply default_title_enabled_explicit.
  - intros x color * E. unfold barplot in E.
    destruct color as [c|]; [destruct (truthy (Some c))|].
    + apply (frame_post _ _ _ _ _ (barplot_stacked_plot 0 _ _ _ _ _ _ _ _ _ _ _)) in E.
      destruct E as (? & ? & ? & _ & _ & _ & _ & _ & _ & _ & ->).
      by apply default_title_enabled_explicit.
    + apply (frame_post _ _ _ _ _ (barplot_basic_plot 0 _ _ _ _ _ _)) in E.
      destruct E as (? & _ & _ & _ & _ & _ & _ & ->).
      by apply default_title_enabled_explicit.
    + apply (frame_post _ _ _ _ _ (barplot_basic_plot 0 _ _ _ _ _ _)) in E.
      destruct E as (? & _ & _ & _ & _ & _ & _ & ->).
      by apply default_title_enabled_explicit.
  - intros * E. apply (frame_post _ _ _ _ _ (scatterplot_plot 0 _ _ _ _ _ _ _ _ _ _ _ _ _)) in E.
    destruct E as (? & ? & _ & _ & ->). by apply default_title_enabled_explicit.
  - intros * E. apply (frame_post _ _ _ _ _ (linechart_plot 0 _ _ _ _ _ _ _)) in E.
    destruct E as (? & _ & ->). by apply default_title_enabled_explicit.
Qed.

Lemma explicit_title_carried_witness :
  ∃ fig w',
    scatterplot (__init__ 0) "sepal length" "width" None false (dec 1 10)
      None None None 1%Qc "ggplot2" true (Some "My title")
      (ex_world ex_xy None) = (Ok fig, w')
    ∧ fig_title fig = Some "My title".
Proof.
  destruct (scatterplot (__init__ 0) "sepal length" "width" None false
              (dec 1 10) None None None 1%Qc "ggplot2" true (Some "My title")
              (ex_world ex_xy None))
    as [[fig|e] w'] eqn:E; [|vm_compute in E; discriminate].
  exists fig, w'. split; [reflexivity|].
  assert (Ht : "My title" ≠ "") by discriminate.
  exact (proj1 (proj2 (proj2 (explicit_title_carried (__init__ 0) _ _ Ht)))
           _ _ _ _ _ _ _ _ _ _ _ _ E).
Defined.

Lemma default_title_unset title default :
  truthy title = false → default_title true title default = Some default.
Proof. intros Ht. unfold default_title. by rewrite Ht. Qed.

(** X15.  When titles are enabled and the caller passes no title (or the
    empty one), each chart builder that returns names the plotted columns in
    the title: the histogram and the bar chart the column on the category
    axis (the bar chart also the colour column when one is given), the
    scatter plot its x and y columns, the line chart its y column. *)
Theorem default_title_names_plotted_columns self w title :
  truthy title = false →
  (∀ x y is_horizontal color facet_col facet_row bins opacity marginal
     template fig w',
      histogram self x y is_horizontal color facet_col facet_row bins opacity
        marginal template true title w = (Ok fig, w') →
      ∃ c, kwarg (category_axis is_horizontal) (fig_kwargs fig) = PStr c
         ∧ fig_title fig = Some ("Histogram of " +:+ c))
  ∧ (∀ x color opacity template barmode is_horizontal is_percent show_num
       fig w',
      barplot self x color opacity template true barmode is_horizontal
        title is_percent show_num w = (Ok fig, w') →
      ∃ c, kwarg (category_axis is_horizontal) (fig_kwargs fig) = PStr c
         ∧ fig_title fig
           = Some (match kwarg "color" (fig_kwargs fig) with
                   | PStr k => "Bar Plot of " +:+ c +:+ " and " +:+ k
                   | _ => "Bar plot of " +:+ c
                   end))
  ∧ (∀ x y color jitter jitter_sd marg_x marg_y trendline opacity template
       fig w',
      scatterplot self x y color jitter jitter_sd marg_x marg_y trendline
        opacity template true title w = (Ok fig, w') →
      ∃ c d, kwarg "x" (fig_kwargs fig) = PStr c
           ∧ kwarg "y" (fig_kwargs fig) = PStr d
           ∧ fig_title fig
             = Some ("Scatter Plot of " +:+ c +:+ " and " +:+ d))
  ∧ (∀ x y color template fig w',
      linechart self x y color template true title w = (Ok fig, w') →
      ∃ c, kwarg "y" (fig_kwargs fig) = PStr c
         ∧ fig_title fig = Some ("Time Series of " +:+ c)).
Proof.
  intros Ht. repeat split.
  - intros * E. apply (frame_post _ _ _ _ _ (histogram_plot 0 _ _ _ _ _ _ _ _ _ _ _ _ _)) in E.
    destruct E as (c & Hc & ->). exists c. by rewrite default_title_unset.
  - intros x color * E. unfold barplot in E.
    destruct color as [c|]; [destruct (truthy (Some c))|].
    + apply (frame_post _ _ _ _ _ (barplot_stacked_plot 0 _ _ _ _ _ _ _ _ _ _ _)) in E.
      destruct E as (c' & k & d & _ & Hc & Hk & _ & _ & _ & _ & ->).
      exists c'. rewrite Hk. by rewrite default_title_unset.
    + apply (frame_post _ _ _ _ _ (barplot_basic_plot 0 _ _ _ _ _ _)) in E.
      destruct E as (c' & Hc & _ & _ & Hk & _ & _ & ->).
      exists c'. rewrite Hk. by rewrite default_title_unset.
    + apply (frame_post _ _ _ _ _ (barplot_basic_plot 0 _ _ _ _ _ _)) in E.
      destruct E as (c' & Hc & _ & _ & Hk & _ & _ & ->).
      exists c'. rewrite Hk. by rewrite default_title_unset.
  - intros * E. apply (frame_post _ _ _ _ _ (scatterplot_plot 0 _ _ _ _ _ _ _ _ _ _ _ _ _)) in E.
    destruct E as (c & d & Hc & Hd & ->). exists c, d.
    by rewrite default_title_unset.
  - intros * E. apply (frame_post _ _ _ _ _ (linechart_plot 0 _ _ _ _ _ _ _)) in E.
    destruct E as (c & Hc & ->). exists c. by rewrite default_title_unset.
Qed.

Lemma default_title_names_plotted_columns_witness :
  ∃ fig w',
    barplot (__init__ 0) "x" (Some "c") 1%Qc "ggplot2" true "stack" false
      (Some "") false false (ex_world ex_scenario None) = (Ok fig, w')
    ∧ ∃ c, kwarg "x" (fig_kwargs fig) = PStr c
         ∧ fig_title fig
           = Some (match kwarg "color" (fig_kwargs fig) with
                   | PStr k => "Bar Plot of " +:+ c +:+ " and " +:+ k
                   | _ => "Bar plot of " +:+ c
                   end).
Proof.
  destruct (barplot (__init__ 0) "x" (Some "c") 1%Qc "ggplot2" true "stack"
              false (Some "") false false (ex_world ex_scenario None))
    as [[fig|e] w'] eqn:E; [|vm_compute in E; discriminate].
  exists fig, w'. split; [reflexivity|].
  exact (proj1 (proj2 (default_title_names_plotted_columns (__init__ 0) _
                         (Some "") eq_refl))
           _ _ _ _ _ false _ _ _ _ E).
Defined.

(** X16.  What a returning bar chart plots on the value axis.  With a
    colour column the eight plotting variants agree: the value axis is
    [Percentage] when [is_percent] is set and [Count] otherwise, the bar
    labels are that same column of the plotted table when [show_num] is
    set and absent otherwise, and [barmode] and [opacity] are passed on.
    Without a colour column the chart always plots [Count] without labels,
    whatever [is_percent], [show_num], [barmode] and [opacity] say. *)
Theorem barplot_value_axis self x color opacity template has_title barmode
  is_horizontal title is_percent show_num w fig w' :
  barplot self x color opacity template has_title barmode is_horizontal
    title is_percent show_num w = (Ok fig, w') →
  let kw := fig_kwargs fig in
  if truthy color then
    ∃ d, fig_frame fig = Some d
       ∧ kwarg (value_axis is_horizontal) kw
         = PStr (if is_percent then "Percentage" else "Count")
       ∧ (if show_num
          then ∃ col, getitem d (if is_percent then "Percentage" else "Count")
                      = Ok col
                    ∧ kwarg "text" kw = PSeries col
          else kwarg "text" kw = PNone)
       ∧ kwarg "barmode" kw = PStr barmode
       ∧ kwarg "opacity" kw = PFloat opacity
  else
    kwarg (value_axis is_horizontal) kw = PStr "Count"
    ∧ kwarg "text" kw = PNone
    ∧ kwarg "barmode" kw = PNone
    ∧ kwarg "opacity" kw = PNone.
Proof.
  intros E kw. subst kw. unfold barplot in E.
  destruct color as [c|]; [destruct (truthy (Some c))|].
  - apply (frame_post _ _ _ _ _ (barplot_stacked_plot 0 _ _ _ _ _ _ _ _ _ _ _)) in E.
    destruct E as (c' & k & d & Hd & _ & _ & Hv & Ht & Hb & Ho & _).
    exists d. done.
  - apply (frame_post _ _ _ _ _ (barplot_basic_plot 0 _ _ _ _ _ _)) in E.
    destruct E as (c' & _ & Hv & Ht & _ & Hb & Ho & _). done.
  - apply (frame_post _ _ _ _ _ (barplot_basic_plot 0 _ _ _ _ _ _)) in E.
    destruct E as (c' & _ & Hv & Ht & _ & Hb & Ho & _). done.
Qed.

Lemma barplot_value_axis_witness :
  ∃ fig w',
    barplot (__init__ 0) "x" (Some "c") 1%Qc "ggplot2" true "stack" true
      None true true (ex_world ex_scenario None) = (Ok fig, w')
    ∧ kwarg "x" (fig_kwargs fig) = PStr "Percentage"
    ∧ ∃ d col, fig_frame fig = Some d ∧ getitem d "Percentage" = Ok col
             ∧ kwarg "text" (fig_kwargs fig) = PSeries col.
Proof.
  destruct (barplot (__init__ 0) "x" (Some "c") 1%Qc "ggplot2" true "stack"
              true None true true (ex_world ex_scenario None))
    as [[fig|e] w'] eqn:E; [|vm_compute in E; discriminate].
  exists fig, w'. split; [reflexivity|].
  destruct (barplot_value_axis _ _ _ _ _ _ _ _ _ _ _ _ _ _ E)
    as (d & Hd & Hv & (col & Hcol & Ht) & _).
  split; [exact Hv|]. by exists d, col.
Defined.
